(** * Allocation tracking: the malloc/free interposer of CAllocationTracking

    A shallow embedding of [Sources/CAllocationTracking/allocation_tracking.c]
    and of the properties its specification states about it.

    - [uint64_t] counters are integers reduced modulo [2^64];
    - pointers and function pointers are integers, [NULL] is [0];
    - the [__thread] variables are a map from thread identifiers to a record;
    - the process is a state; every C function is a state transformer that
      either returns or halts (call through a null function pointer, or a
      thread blocked for ever inside [pthread_once]);
    - what the file does not define ([dlsym], the allocator found behind
      [RTLD_NEXT]) is a parameter of the development. *)

From Stdlib Require Import ZArith List Lia String Bool Arith.
Import ListNotations.
Open Scope Z_scope.

(** ** 64-bit unsigned arithmetic *)

Definition UINT64_MOD : Z := 2 ^ 64.

(** The value a [uint64_t] object holds after [z] is stored in it. *)
Definition uint64 (z : Z) : Z := z mod UINT64_MOD.

Arguments UINT64_MOD : simpl never.
Arguments uint64 z : simpl never.

(** ** allocation_tracking.h *)

Record AllocationStats : Type := mkStats {
  allocations : Z;
  deallocations : Z;
  bytes_allocated : Z
}.

(** [= {0}] and [memset(&stats, 0, sizeof(stats))]. *)
Definition stats_zero : AllocationStats := mkStats 0 0 0.

(** Thread identifiers. *)
Definition tid : Type := nat.

(** The two [static __thread] objects of one thread. *)
Record thread_vars : Type := mkThread {
  tracking_enabled : Z;
  stats : AllocationStats
}.

Definition thread_vars_init : thread_vars := mkThread 0 stats_zero.

(** The control object of [pthread_once]. *)
Inductive pthread_once_t : Type :=
| PTHREAD_ONCE_INIT
| ONCE_IN_PROGRESS
| ONCE_DONE.

(** What the public entry points and the two interposed symbols are called
    with, and what they hand back. *)
Inductive call : Type :=
| Cmalloc (size : Z)
| Cfree (ptr : Z)
| Cstart
| Cstop
| Ccurrent.

Inductive value : Type :=
| Vptr (p : Z)
| Vvoid
| Vstats (s : AllocationStats).

Record event : Type := mkEvent {
  ev_tid : tid;
  ev_call : call;
  ev_ret : value
}.

(** Why a call does not return. *)
Inductive failure : Type :=
| NullCall    (* control transferred through a null function pointer *)
| Deadlock    (* the thread waits inside pthread_once and is never woken *)
| OutOfFuel.  (* the bound on the nesting of calls was too small *)

(** ** The environment of the shim

    What the file calls but does not define. *)
Record environment : Type := mkEnv {
  (** State of the allocator that lies behind the shim. *)
  heap : Type;
  (** The next definitions of [malloc] and [free] in symbol lookup order:
      what a non-null result of [dlsym(RTLD_NEXT, ...)] points to. *)
  libc_malloc : Z -> heap -> Z * heap;
  libc_free : Z -> heap -> heap;
  (** Address returned by [dlsym(RTLD_NEXT, symbol)]; [0] when the symbol is
      not found. *)
  dlsym_next : string -> Z;
  (** Sizes of the [malloc] requests [dlsym] itself issues while it resolves
      [symbol].  They are calls of the symbol [malloc], hence of the
      interposed function below. *)
  dlsym_mallocs : string -> list Z
}.

(** The test [tracking_enabled && ptr != NULL]. *)
Definition counted (v : thread_vars) (ptr : Z) : bool :=
  negb (tracking_enabled v =? 0) && negb (ptr =? 0).

Section Interposer.

Variable E : environment.

(** *** Process state *)

Record state : Type := mkState {
  real_malloc : Z;
  real_free : Z;
  init_once : pthread_once_t;
  tls : tid -> thread_vars;
  libc_heap : heap E
}.

(** State of a process at load time: the static initialisers of the file. *)
Definition initial_state (h : heap E) : state :=
  mkState 0 0 PTHREAD_ONCE_INIT (fun _ => thread_vars_init) h.

Definition set_real_malloc (a : Z) (st : state) : state :=
  mkState a (real_free st) (init_once st) (tls st) (libc_heap st).

Definition set_real_free (a : Z) (st : state) : state :=
  mkState (real_malloc st) a (init_once st) (tls st) (libc_heap st).

Definition set_init_once (o : pthread_once_t) (st : state) : state :=
  mkState (real_malloc st) (real_free st) o (tls st) (libc_heap st).

Definition set_libc_heap (h : heap E) (st : state) : state :=
  mkState (real_malloc st) (real_free st) (init_once st) (tls st) h.

Definition set_thread (t : tid) (v : thread_vars) (st : state) : state :=
  mkState (real_malloc st) (real_free st) (init_once st)
          (fun u => if Nat.eqb u t then v else tls st u) (libc_heap st).

(** *** Computations *)

Inductive outcome (A : Type) : Type :=
| Ret (a : A) (st : state)
| Halt (f : failure) (st : state).

Arguments Ret {A} a st.
Arguments Halt {A} f st.

Definition M (A : Type) : Type := state -> outcome A.

Definition ret {A : Type} (a : A) : M A := fun st => Ret a st.

Definition bind {A B : Type} (m : M A) (k : A -> M B) : M B :=
  fun st =>
    match m st with
    | Ret a st' => k a st'
    | Halt f st' => Halt f st'
    end.

Notation "x <- m ;; k" := (bind m (fun x => k))
  (at level 61, m at next level, right associativity).
Notation "m ;; k" := (bind m (fun _ => k))
  (at level 61, right associativity).

Definition halt {A : Type} (f : failure) : M A := fun st => Halt f st.

Definition get_thread (t : tid) : M thread_vars := fun st => Ret (tls st t) st.

Definition put_thread (t : tid) (v : thread_vars) : M unit :=
  fun st => Ret tt (set_thread t v st).

(** *** The resolver *)

(** [real_malloc(size)]: a call through the function pointer. *)
Definition call_real_malloc (size : Z) : M Z :=
  fun st =>
    if real_malloc st =? 0 then Halt NullCall st
    else let (ptr, h) := libc_malloc E size (libc_heap st) in
         Ret ptr (set_libc_heap h st).

(** [real_free(ptr)]. *)
Definition call_real_free (ptr : Z) : M unit :=
  fun st =>
    if real_free st =? 0 then Halt NullCall st
    else Ret tt (set_libc_heap (libc_free E ptr (libc_heap st)) st).

(** The allocation requests [dlsym] makes on its own account. *)
Fixpoint resolver_traffic (nested_malloc : Z -> M Z) (sizes : list Z) : M unit :=
  match sizes with
  | [] => ret tt
  | size :: rest =>
      _ <- nested_malloc size ;;
      resolver_traffic nested_malloc rest
  end.

Definition dlsym (nested_malloc : Z -> M Z) (symbol : string) : M Z :=
  resolver_traffic nested_malloc (dlsym_mallocs E symbol) ;;
  ret (dlsym_next E symbol).

Definition init_hooks (nested_malloc : Z -> M Z) : M unit :=
  a <- dlsym nested_malloc "malloc" ;;
  (fun st => Ret tt (set_real_malloc a st)) ;;
  b <- dlsym nested_malloc "free" ;;
  (fun st => Ret tt (set_real_free b st)).

(** [pthread_once(&init_once, init_routine)].  The first caller runs the
    routine.  POSIX has it that "on return from pthread_once(),
    init_routine shall have completed": a caller that finds the routine
    running waits for it to finish, and when that caller is the thread
    running the routine the wait has no end.  Calls are atomic for other
    threads (see [step]), so the in-progress state is only ever seen from
    inside the routine. *)
Definition pthread_once (init_routine : M unit) : M unit :=
  fun st =>
    match init_once st with
    | PTHREAD_ONCE_INIT =>
        match init_routine (set_init_once ONCE_IN_PROGRESS st) with
        | Ret _ st' => Ret tt (set_init_once ONCE_DONE st')
        | Halt f st' => Halt f st'
        end
    | ONCE_IN_PROGRESS => Halt Deadlock st
    | ONCE_DONE => Ret tt st
    end.

(** *** The interposed entry points *)

Definition count_allocation (size : Z) (s : AllocationStats) : AllocationStats :=
  mkStats (uint64 (allocations s + 1))
          (deallocations s)
          (uint64 (bytes_allocated s + size)).

Definition count_deallocation (s : AllocationStats) : AllocationStats :=
  mkStats (allocations s)
          (uint64 (deallocations s + 1))
          (bytes_allocated s).

(** Body of [malloc], its [pthread_once(&init_once, init_hooks)] being
    [once]. *)
Definition malloc_body (once : M unit) (t : tid) (size : Z) : M Z :=
  once ;;
  ptr <- call_real_malloc size ;;
  v <- get_thread t ;;
  (if counted v ptr
   then put_thread t (mkThread (tracking_enabled v)
                               (count_allocation size (stats v)))
   else ret tt) ;;
  ret ptr.

(** Body of [free]. *)
Definition free_body (once : M unit) (t : tid) (ptr : Z) : M unit :=
  once ;;
  v <- get_thread t ;;
  (if counted v ptr
   then put_thread t (mkThread (tracking_enabled v)
                               (count_deallocation (stats v)))
   else ret tt) ;;
  call_real_free ptr.

(** [malloc] calls [pthread_once], which may call [init_hooks], which
    calls [dlsym], which may call [malloc]: the recursion is cut by a
    bound on the nesting depth. *)
Fixpoint malloc_fuel (fuel : nat) (t : tid) (size : Z) : M Z :=
  match fuel with
  | O => halt OutOfFuel
  | S fuel' =>
      malloc_body (pthread_once (init_hooks (malloc_fuel fuel' t))) t size
  end.

(** Two levels are all the recursion ever uses ([malloc_fuel_stable]). *)
Definition malloc (t : tid) (size : Z) : M Z := malloc_fuel 2 t size.

Definition free (t : tid) (ptr : Z) : M unit :=
  free_body (pthread_once (init_hooks (malloc t))) t ptr.

(** *** The tracking API *)

Definition tracking_start (t : tid) : M unit :=
  v <- get_thread t ;;
  put_thread t (mkThread (tracking_enabled v) stats_zero) ;;
  v <- get_thread t ;;
  put_thread t (mkThread 1 (stats v)).

Definition tracking_stop (t : tid) : M AllocationStats :=
  v <- get_thread t ;;
  put_thread t (mkThread 0 (stats v)) ;;
  v <- get_thread t ;;
  ret (stats v).

Definition tracking_current (t : tid) : M AllocationStats :=
  v <- get_thread t ;;
  ret (stats v).

(** *** Threads *)

(** One call made by thread [t].  Threads interleave at the granularity of
    calls: a call touches the thread-local variables of its caller only,
    and the two bindings are written under [pthread_once]. *)
Definition step (t : tid) (c : call) : M value :=
  match c with
  | Cmalloc size => p <- malloc t size ;; ret (Vptr p)
  | Cfree ptr => free t ptr ;; ret Vvoid
  | Cstart => tracking_start t ;; ret Vvoid
  | Cstop => s <- tracking_stop t ;; ret (Vstats s)
  | Ccurrent => s <- tracking_current t ;; ret (Vstats s)
  end.

(** A schedule of calls, and the log of what each returned. *)
Fixpoint run (tr : list (tid * call)) : M (list event) :=
  match tr with
  | [] => ret []
  | (t, c) :: tr' =>
      v <- step t c ;;
      log <- run tr' ;;
      ret (mkEvent t c v :: log)
  end.

Inductive reachable : state -> Prop :=
| reachable_init : forall h, reachable (initial_state h)
| reachable_step : forall st t c v st',
    reachable st -> step t c st = Ret v st' -> reachable st'.

End Interposer.

Arguments Ret {E A} a st.
Arguments Halt {E A} f st.
Arguments mkState {E} _ _ _ _ _.
Arguments real_malloc {E} _.
Arguments real_free {E} _.
Arguments init_once {E} _.
Arguments tls {E} _ _.
Arguments libc_heap {E} _.

(** ** Vocabulary of the properties *)

Section Vocabulary.

Variable E : environment.

(** The state [init_hooks] leaves behind when it runs to its end. *)
Definition resolve (st : state E) : state E :=
  mkState (dlsym_next E "malloc") (dlsym_next E "free") ONCE_DONE
          (tls st) (libc_heap st).

(** What [pthread_once(&init_once, init_hooks)] does, in closed form
    ([once_spec] proves it of the code). *)
Definition once_outcome (st : state E) : outcome E unit :=
  match init_once st with
  | PTHREAD_ONCE_INIT =>
      match dlsym_mallocs E "malloc" with
      | _ :: _ => Halt Deadlock (set_init_once E ONCE_IN_PROGRESS st)
      | [] =>
          match dlsym_mallocs E "free" with
          | _ :: _ =>
              Halt Deadlock
                   (set_real_malloc E (dlsym_next E "malloc")
                                    (set_init_once E ONCE_IN_PROGRESS st))
          | [] => Ret tt (resolve st)
          end
      end
  | ONCE_IN_PROGRESS => Halt Deadlock st
  | ONCE_DONE => Ret tt st
  end.

(** [dlsym] finds both symbols and allocates nothing on the way. *)
Definition resolvable : Prop :=
  dlsym_mallocs E "malloc" = [] /\ dlsym_mallocs E "free" = [] /\
  dlsym_next E "malloc" <> 0 /\ dlsym_next E "free" <> 0.

(** The resolver can serve a call made in [st]: both bindings are already
    there, or the initialisation that is still to run will provide them. *)
Definition serviceable (st : state E) : Prop :=
  match init_once st with
  | PTHREAD_ONCE_INIT => resolvable
  | ONCE_IN_PROGRESS => False
  | ONCE_DONE => real_malloc st <> 0 /\ real_free st <> 0
  end.

(** The bindings are those of a process that started in [initial_state] and
    in which no initialisation is under way. *)
Definition bindings_inv (st : state E) : Prop :=
  match init_once st with
  | PTHREAD_ONCE_INIT => real_malloc st = 0 /\ real_free st = 0
  | ONCE_IN_PROGRESS => False
  | ONCE_DONE =>
      real_malloc st = dlsym_next E "malloc" /\
      real_free st = dlsym_next E "free"
  end.

End Vocabulary.

Arguments resolve {E} st.
Arguments once_outcome {E} st.
Arguments serviceable {E} st.
Arguments bindings_inv {E} st.

(** Sizes of the [malloc] calls of thread [t] in a log, in order. *)
Fixpoint mallocs_of (t : tid) (log : list event) : list Z :=
  match log with
  | [] => []
  | e :: log' =>
      match ev_call e with
      | Cmalloc size =>
          if Nat.eqb (ev_tid e) t then size :: mallocs_of t log'
          else mallocs_of t log'
      | _ => mallocs_of t log'
      end
  end.

(** Pointers passed to [free] by thread [t] in a log, in order. *)
Fixpoint frees_of (t : tid) (log : list event) : list Z :=
  match log with
  | [] => []
  | e :: log' =>
      match ev_call e with
      | Cfree ptr =>
          if Nat.eqb (ev_tid e) t then ptr :: frees_of t log'
          else frees_of t log'
      | _ => frees_of t log'
      end
  end.

Definition sum (l : list Z) : Z := fold_right Z.add 0 l.

Definition count (l : list Z) : Z := Z.of_nat (List.length l).

(** What thread [t] does inside a window that is being counted: [malloc]
    calls that succeed and [free] calls on non-null pointers.  Other threads
    do as they like. *)
Definition window_traffic (t : tid) (e : event) : Prop :=
  ev_tid e = t ->
  match ev_call e, ev_ret e with
  | Cmalloc _, Vptr p => p <> 0
  | Cfree ptr, _ => ptr <> 0
  | _, _ => False
  end.

(** Thread [t] does not call [tracking_start] here. *)
Definition no_start (t : tid) (tc : tid * call) : Prop :=
  fst tc = t -> snd tc <> Cstart.

(** Every [tracking_current] of thread [t] in the log returned [s]. *)
Definition current_reads (t : tid) (s : AllocationStats) (e : event) : Prop :=
  ev_tid e = t -> ev_call e = Ccurrent -> ev_ret e = Vstats s.

Definition stats_le (a b : AllocationStats) : Prop :=
  allocations a <= allocations b /\
  deallocations a <= deallocations b /\
  bytes_allocated a <= bytes_allocated b.

(** The counters hold 64-bit values. *)
Definition stats_wf (s : AllocationStats) : Prop :=
  0 <= allocations s < UINT64_MOD /\
  0 <= deallocations s < UINT64_MOD /\
  0 <= bytes_allocated s < UINT64_MOD.

(** The call does not take a counter of [s] past [2^64 - 1]. *)
Definition no_overflow (s : AllocationStats) (c : call) : Prop :=
  match c with
  | Cmalloc size =>
      0 <= size /\ allocations s + 1 < UINT64_MOD /\
      bytes_allocated s + size < UINT64_MOD
  | Cfree _ => deallocations s + 1 < UINT64_MOD
  | _ => True
  end.

Definition is_traffic (c : call) : Prop :=
  match c with
  | Cmalloc _ | Cfree _ => True
  | _ => False
  end.

(** The statistics of a thread after [n] allocations of [b] bytes in all
    and [m] releases have been added to [s]. *)
Definition advance (s : AllocationStats) (n m b : Z) : AllocationStats :=
  mkStats (uint64 (allocations s + n))
          (uint64 (deallocations s + m))
          (uint64 (bytes_allocated s + b)).

(** ** Three concrete environments *)

(** A bump allocator over addresses: requests above [toy_limit] fail. *)
Definition toy_limit : Z := 2 ^ 30.

Definition toy_malloc (size : Z) (brk : Z) : Z * Z :=
  if size <=? toy_limit then (brk, brk + Z.max size 16) else (0, brk).

Definition toy_free (ptr : Z) (brk : Z) : Z := brk.

Definition toy_dlsym (symbol : string) : Z :=
  if String.eqb symbol "malloc" then 4198400
  else if String.eqb symbol "free" then 4198912
  else 0.

(** Both symbols are found and [dlsym] allocates nothing. *)
Definition toy_env : environment :=
  mkEnv Z toy_malloc toy_free toy_dlsym (fun _ => []).

(** No further definition of the two symbols exists. *)
Definition unresolved_env : environment :=
  mkEnv Z toy_malloc toy_free (fun _ => 0) (fun _ => []).

(** [dlsym] asks for 64 bytes whenever it resolves a symbol. *)
Definition reentrant_env : environment :=
  mkEnv Z toy_malloc toy_free toy_dlsym (fun _ => [64]).

(** State in which a computation ends, and what it returned. *)
Definition final_state {E : environment} {A : Type} (o : outcome E A) : state E :=
  match o with
  | Ret _ st => st
  | Halt _ st => st
  end.

Definition returned {E : environment} {A : Type} (d : A) (o : outcome E A) : A :=
  match o with
  | Ret a _ => a
  | Halt _ _ => d
  end.

(** ** A sample execution

    The scenario of the specification: thread 0 opens a window, allocates
    10 then 20 bytes, releases the first block; thread 1 allocates without
    ever tracking. *)

Definition boot : state toy_env := initial_state toy_env 4096.

Definition sample_window : list (tid * call) :=
  [(0%nat, Cmalloc 10); (1%nat, Cmalloc 5); (0%nat, Cmalloc 20);
   (0%nat, Cfree 4096); (1%nat, Cmalloc 7)].

Definition sample_opened : state toy_env :=
  final_state (tracking_start toy_env 0%nat boot).

Definition sample_log : list event :=
  returned [] (run toy_env sample_window sample_opened).

(** Thread 0 tracking, with two allocations and one release on record. *)
Definition sample_tracking : state toy_env :=
  final_state (run toy_env sample_window sample_opened).

Definition sample_stopped : state toy_env :=
  final_state (tracking_stop toy_env 0%nat sample_tracking).

Definition sample_after_stop : list (tid * call) :=
  [(0%nat, Cmalloc 8); (0%nat, Ccurrent); (1%nat, Cstart); (1%nat, Cmalloc 3);
   (0%nat, Cfree 4112); (0%nat, Cstop); (0%nat, Ccurrent)].

Definition sample_untracked : list (tid * call) :=
  [(1%nat, Cmalloc 5); (0%nat, Cstart); (0%nat, Cmalloc 10); (1%nat, Ccurrent);
   (1%nat, Cfree 4096); (1%nat, Cstop); (0%nat, Cmalloc 20); (1%nat, Ccurrent)].

(** The process after its first call, a [malloc] of 8 bytes. *)
Definition sample_served : state toy_env :=
  final_state (step toy_env 0%nat (Cmalloc 8) boot).

(** A process whose first call is being served: [init_hooks] is running. *)
Definition sample_initialising : state reentrant_env :=
  set_init_once reentrant_env ONCE_IN_PROGRESS (initial_state reentrant_env 4096).

(** ** Vocabulary of the further properties *)

(** Sizes of the [malloc] calls of thread [t] in a log that returned a
    non-null pointer, in order. *)
Fixpoint counted_mallocs_of (t : tid) (log : list event) : list Z :=
  match log with
  | [] => []
  | e :: log' =>
      match ev_call e, ev_ret e with
      | Cmalloc size, Vptr p =>
          if Nat.eqb (ev_tid e) t && negb (p =? 0)
          then size :: counted_mallocs_of t log'
          else counted_mallocs_of t log'
      | _, _ => counted_mallocs_of t log'
      end
  end.

(** Non-null pointers passed to [free] by thread [t] in a log, in order. *)
Fixpoint counted_frees_of (t : tid) (log : list event) : list Z :=
  match log with
  | [] => []
  | e :: log' =>
      match ev_call e with
      | Cfree ptr =>
          if Nat.eqb (ev_tid e) t && negb (ptr =? 0)
          then ptr :: counted_frees_of t log'
          else counted_frees_of t log'
      | _ => counted_frees_of t log'
      end
  end.

(** Thread [t] neither opens nor closes a window here. *)
Definition no_window_call (t : tid) (tc : tid * call) : Prop :=
  fst tc = t -> snd tc <> Cstart /\ snd tc <> Cstop.

Definition is_trafficb (c : call) : bool :=
  match c with
  | Cmalloc _ | Cfree _ => true
  | _ => false
  end.

(** A schedule with the calls of the tracking API taken out. *)
Definition traffic_only (tr : list (tid * call)) : list (tid * call) :=
  filter (fun tc => is_trafficb (snd tc)) tr.

Definition traffic_events (log : list event) : list event :=
  filter (fun e => is_trafficb (ev_call e)) log.

(** Two states of the process that differ at most in the thread-local
    variables. *)
Definition same_allocator {E : environment} (a b : state E) : Prop :=
  real_malloc a = real_malloc b /\ real_free a = real_free b /\
  init_once a = init_once b /\ libc_heap a = libc_heap b.

(** [dlsym] finds [malloc] but no further [free]. *)
Definition toy_dlsym_no_free (symbol : string) : Z :=
  if String.eqb symbol "malloc" then 4198400 else 0.

Definition no_free_env : environment :=
  mkEnv Z toy_malloc toy_free toy_dlsym_no_free (fun _ => []).

(** A window of thread 0 with a request that fails, a null release and a
    reading in the middle. *)
Definition sample_mixed : list (tid * call) :=
  [(0%nat, Cmalloc 10); (0%nat, Cmalloc (2 ^ 31)); (0%nat, Ccurrent);
   (0%nat, Cfree 0); (1%nat, Cstart); (0%nat, Cfree 4096);
   (1%nat, Cmalloc 5); (0%nat, Cmalloc 20)].

(** What threads 1 and 2 do while thread 0 is tracking. *)
Definition sample_others : list (tid * call) :=
  [(1%nat, Cstart); (2%nat, Cmalloc 64); (1%nat, Cfree 4096);
   (1%nat, Cstop); (2%nat, Cstart); (2%nat, Cfree 4112)].

(** Thread 0 tracking in a process without a real [free], after one
    allocation. *)
Definition sample_no_free : state no_free_env :=
  final_state (run no_free_env [(0%nat, Cstart); (0%nat, Cmalloc 8)]
                   (initial_state no_free_env 4096)).

(** Settles a [Forall] over a literal list whose head predicate is an
    implication from the identity of the thread. *)
Ltac each_event :=
  repeat (apply Forall_cons;
          [intros Htid; cbn in Htid |- *;
           first [discriminate Htid | discriminate | intros; reflexivity]|]);
  apply Forall_nil.

(** * Properties *)

(** ** Arithmetic of the counters *)

Lemma uint64_range (z : Z) : 0 <= uint64 z < UINT64_MOD.
Proof. unfold uint64, UINT64_MOD. apply Z.mod_pos_bound. lia. Qed.

Lemma uint64_small (z : Z) : 0 <= z < UINT64_MOD -> uint64 z = z.
Proof. intros H. unfold uint64. now apply Z.mod_small. Qed.

Lemma uint64_add_l (a b : Z) : uint64 (uint64 a + b) = uint64 (a + b).
Proof. unfold uint64. apply Zplus_mod_idemp_l. Qed.

(** The counters wrap: nothing in the code looks for an overflow. *)
Lemma count_allocation_wraps :
  count_allocation 16 (mkStats (UINT64_MOD - 1) 0 (UINT64_MOD - 8))
  = mkStats 0 0 8.
Proof. reflexivity. Qed.

Lemma count_deallocation_wraps :
  count_deallocation (mkStats 0 (UINT64_MOD - 1) 0) = mkStats 0 0 0.
Proof. reflexivity. Qed.

Lemma sum_cons (x : Z) (l : list Z) : sum (x :: l) = x + sum l.
Proof. reflexivity. Qed.

Lemma count_cons (x : Z) (l : list Z) : count (x :: l) = 1 + count l.
Proof. unfold count. cbn [List.length]. lia. Qed.

Section Properties.

Variable E : environment.

Implicit Types (st : state E) (t u : tid) (size ptr : Z).

(** ** The resolver *)

(** A call of [malloc] that finds the initialisation under way blocks. *)
Lemma malloc_fuel_in_progress k t size st :
  init_once st = ONCE_IN_PROGRESS ->
  malloc_fuel E (S k) t size st = Halt Deadlock st.
Proof.
  intros H. cbn [malloc_fuel]. unfold malloc_body, bind, pthread_once.
  now rewrite H.
Qed.

Lemma resolver_traffic_in_progress k t sizes st :
  init_once st = ONCE_IN_PROGRESS ->
  resolver_traffic E (malloc_fuel E (S k) t) sizes st =
  match sizes with
  | [] => Ret tt st
  | _ :: _ => Halt Deadlock st
  end.
Proof.
  intros H. destruct sizes as [|size rest]; [reflexivity|].
  cbn [resolver_traffic]. unfold bind.
  now rewrite malloc_fuel_in_progress.
Qed.

(** [pthread_once(&init_once, init_hooks)] in closed form, whatever the
    depth allowed to the calls [dlsym] makes. *)
Lemma once_spec k t st :
  pthread_once E (init_hooks E (malloc_fuel E (S k) t)) st = once_outcome st.
Proof.
  unfold pthread_once, once_outcome.
  destruct (init_once st) eqn:Hst; try reflexivity.
  unfold init_hooks, dlsym, bind, ret.
  rewrite resolver_traffic_in_progress by reflexivity.
  destruct (dlsym_mallocs E "malloc"); [|reflexivity].
  rewrite resolver_traffic_in_progress by reflexivity.
  destruct (dlsym_mallocs E "free"); reflexivity.
Qed.

(** More fuel changes nothing: [malloc] is the function of the source. *)
Lemma malloc_fuel_stable k t size st :
  malloc_fuel E (S (S k)) t size st = malloc E t size st.
Proof.
  change (malloc_fuel E (S (S k)) t size st)
    with (malloc_body E (pthread_once E (init_hooks E (malloc_fuel E (S k) t)))
                      t size st).
  change (malloc E t size st)
    with (malloc_body E (pthread_once E (init_hooks E (malloc_fuel E 1 t)))
                      t size st).
  unfold malloc_body, bind. now rewrite !once_spec.
Qed.

Lemma malloc_unfold t size st :
  malloc E t size st = malloc_body E once_outcome t size st.
Proof.
  change (malloc E t size st)
    with (malloc_body E (pthread_once E (init_hooks E (malloc_fuel E 1 t)))
                      t size st).
  unfold malloc_body, bind. now rewrite once_spec.
Qed.

Lemma free_unfold t ptr st :
  free E t ptr st = free_body E once_outcome t ptr st.
Proof.
  change (free E t ptr st)
    with (free_body E (pthread_once E (init_hooks E (malloc_fuel E 2 t)))
                    t ptr st).
  unfold free_body, bind. now rewrite once_spec.
Qed.

(** The bound on nesting is never hit. *)
Lemma once_outcome_fuel st st' : once_outcome st <> Halt OutOfFuel st'.
Proof.
  unfold once_outcome.
  destruct (init_once st); try discriminate.
  destruct (dlsym_mallocs E "malloc"); try discriminate.
  destruct (dlsym_mallocs E "free"); discriminate.
Qed.

(** When the one-time initialisation returns, it has left the thread-local
    variables and the allocator alone. *)
Lemma once_outcome_ret st (x : unit) s1 :
  once_outcome st = Ret x s1 ->
  tls s1 = tls st /\ libc_heap s1 = libc_heap st /\
  init_once s1 = ONCE_DONE /\ init_once st <> ONCE_IN_PROGRESS /\
  s1 = match init_once st with
       | PTHREAD_ONCE_INIT => resolve st
       | _ => st
       end.
Proof.
  unfold once_outcome.
  destruct (init_once st) eqn:Hst; try discriminate.
  - destruct (dlsym_mallocs E "malloc"); try discriminate.
    destruct (dlsym_mallocs E "free"); try discriminate.
    intros [= <- <-]. repeat split. intros [=].
  - intros [= <- <-]. repeat split; auto. intros [=].
Qed.

Lemma once_outcome_serviceable st :
  serviceable st ->
  exists s1, once_outcome st = Ret tt s1 /\
             real_malloc s1 <> 0 /\ real_free s1 <> 0.
Proof.
  unfold serviceable, once_outcome, resolvable.
  destruct (init_once st); try contradiction.
  - intros (-> & -> & Hm & Hf). eexists; repeat split; eauto.
  - intros (Hm & Hf). eexists; repeat split; eauto.
Qed.

Lemma once_outcome_done st :
  init_once st = ONCE_DONE -> once_outcome st = Ret tt st.
Proof. intros H. unfold once_outcome. now rewrite H. Qed.

(** ** One call of [malloc] or [free] *)

Lemma counted_true v ptr :
  counted v ptr = true <-> tracking_enabled v <> 0 /\ ptr <> 0.
Proof.
  unfold counted. rewrite andb_true_iff, !negb_true_iff, !Z.eqb_neq. tauto.
Qed.

Lemma counted_null v : counted v 0 = false.
Proof. unfold counted. cbn. now rewrite andb_false_r. Qed.

Lemma counted_disabled v ptr : tracking_enabled v = 0 -> counted v ptr = false.
Proof. intros H. unfold counted. now rewrite H. Qed.

Lemma set_thread_same t v st : tls (set_thread E t v st) t = v.
Proof. cbn. now rewrite Nat.eqb_refl. Qed.

Lemma set_thread_other t u v st : u <> t -> tls (set_thread E t v st) u = tls st u.
Proof. intros H. cbn. apply Nat.eqb_neq in H. now rewrite H. Qed.

(** Everything a returning [malloc] has done. *)
Lemma malloc_ret t size st p st' :
  malloc E t size st = Ret p st' ->
  exists s1,
    once_outcome st = Ret tt s1 /\
    real_malloc s1 <> 0 /\
    libc_malloc E size (libc_heap st) = (p, libc_heap st') /\
    real_malloc st' = real_malloc s1 /\
    real_free st' = real_free s1 /\
    init_once st' = ONCE_DONE /\
    tls st' t =
      (if counted (tls st t) p
       then mkThread (tracking_enabled (tls st t))
                     (count_allocation size (stats (tls st t)))
       else tls st t) /\
    (forall u, u <> t -> tls st' u = tls st u).
Proof.
  rewrite malloc_unfold.
  unfold malloc_body, bind, call_real_malloc, get_thread, put_thread, ret.
  destruct (once_outcome st) as [[] s1|] eqn:Ho; try discriminate.
  destruct (once_outcome_ret _ _ _ Ho) as (Htls & Hheap & Hdone & _ & _).
  destruct (real_malloc s1 =? 0) eqn:Hrm; try discriminate.
  apply Z.eqb_neq in Hrm. rewrite Hheap.
  destruct (libc_malloc E size (libc_heap st)) as [q h].
  cbn [tls set_libc_heap]. rewrite Htls.
  destruct (counted (tls st t) q) eqn:Hc; intros [= <- <-];
    exists s1; rewrite Hc; repeat split; auto.
  - apply set_thread_same.
  - intros u Hu. rewrite set_thread_other by exact Hu. cbn. now rewrite Htls.
  - cbn. now rewrite Htls.
  - intros u _. cbn. now rewrite Htls.
Qed.

(** [malloc] returns whenever the resolver can serve it, and returns what
    the allocator behind it returned. *)
Lemma malloc_serviceable t size st :
  serviceable st ->
  exists st',
    malloc E t size st = Ret (fst (libc_malloc E size (libc_heap st))) st'.
Proof.
  intros Hs. destruct (once_outcome_serviceable _ Hs) as (s1 & Ho & Hm & _).
  rewrite malloc_unfold.
  unfold malloc_body, bind, call_real_malloc, get_thread, put_thread, ret.
  rewrite Ho. apply Z.eqb_neq in Hm. rewrite Hm.
  destruct (once_outcome_ret _ _ _ Ho) as (_ & Hheap & _). rewrite Hheap.
  destruct (libc_malloc E size (libc_heap st)) as [q h]. cbn [fst].
  match goal with |- context [if ?c then _ else _] => destruct c end;
    eexists; reflexivity.
Qed.

(** Everything a returning [free] has done. *)
Lemma free_ret t ptr st (x : unit) st' :
  free E t ptr st = Ret x st' ->
  exists s1,
    once_outcome st = Ret tt s1 /\
    real_free s1 <> 0 /\
    libc_heap st' = libc_free E ptr (libc_heap st) /\
    real_malloc st' = real_malloc s1 /\
    real_free st' = real_free s1 /\
    init_once st' = ONCE_DONE /\
    tls st' t =
      (if counted (tls st t) ptr
       then mkThread (tracking_enabled (tls st t))
                     (count_deallocation (stats (tls st t)))
       else tls st t) /\
    (forall u, u <> t -> tls st' u = tls st u).
Proof.
  rewrite free_unfold.
  unfold free_body, bind, call_real_free, get_thread, put_thread, ret.
  destruct (once_outcome st) as [[] s1|] eqn:Ho; try discriminate.
  destruct (once_outcome_ret _ _ _ Ho) as (Htls & Hheap & Hdone & _ & _).
  rewrite Htls.
  destruct (counted (tls st t) ptr) eqn:Hc; cbn [real_free set_thread];
    (destruct (real_free s1 =? 0) eqn:Hrf; try discriminate);
    apply Z.eqb_neq in Hrf; intros [= <- <-];
    exists s1; repeat split; auto; cbn.
  - now rewrite Hheap.
  - now rewrite Nat.eqb_refl.
  - intros u Hu. apply Nat.eqb_neq in Hu. rewrite Hu. now rewrite Htls.
  - now rewrite Hheap.
  - now rewrite Htls.
  - intros u _. now rewrite Htls.
Qed.

Lemma free_serviceable t ptr st :
  serviceable st -> exists st', free E t ptr st = Ret tt st'.
Proof.
  intros Hs. destruct (once_outcome_serviceable _ Hs) as (s1 & Ho & _ & Hf).
  rewrite free_unfold.
  unfold free_body, bind, call_real_free, get_thread, put_thread, ret.
  rewrite Ho. apply Z.eqb_neq in Hf.
  match goal with |- context [if ?c then _ else _] => destruct c end;
    cbn [real_free set_thread]; rewrite Hf; eexists; reflexivity.
Qed.

(** The bound on the nesting of calls is never what stops [malloc]. *)
Lemma malloc_fuel_enough t size st st' :
  malloc E t size st <> Halt OutOfFuel st'.
Proof.
  rewrite malloc_unfold.
  unfold malloc_body, bind, call_real_malloc, get_thread, put_thread, ret.
  destruct (once_outcome st) as [[] s1|f s1] eqn:Ho.
  - destruct (real_malloc s1 =? 0); [discriminate|].
    destruct (libc_malloc E size (libc_heap s1)) as [q h]. cbn [tls set_libc_heap].
    destruct (counted (tls s1 t) q); discriminate.
  - intros [= -> ->]. now apply once_outcome_fuel in Ho.
Qed.

(** ** The tracking API *)

Lemma tracking_start_eq t st :
  tracking_start E t st =
  Ret tt (set_thread E t (mkThread 1 stats_zero)
            (set_thread E t (mkThread (tracking_enabled (tls st t)) stats_zero) st)).
Proof.
  unfold tracking_start, bind, get_thread, put_thread.
  now rewrite set_thread_same.
Qed.

Lemma tracking_stop_eq t st :
  tracking_stop E t st =
  Ret (stats (tls st t)) (set_thread E t (mkThread 0 (stats (tls st t))) st).
Proof.
  unfold tracking_stop, bind, get_thread, put_thread, ret.
  now rewrite set_thread_same.
Qed.

Lemma tracking_current_eq t st :
  tracking_current E t st = Ret (stats (tls st t)) st.
Proof. reflexivity. Qed.

(** ** One call, seen from any thread *)

(** A call leaves the variables of every other thread as they were. *)
Lemma step_frame t u c st v st' :
  step E t c st = Ret v st' -> u <> t -> tls st' u = tls st u.
Proof.
  intros Hstep Hu. destruct c as [size|ptr| | |]; cbn [step] in Hstep;
    unfold bind, ret in Hstep.
  - destruct (malloc E t size st) as [p s1|] eqn:Hm; [|discriminate].
    injection Hstep as _ <-.
    destruct (malloc_ret _ _ _ _ _ Hm) as (_ & _ & _ & _ & _ & _ & _ & _ & H).
    now apply H.
  - destruct (free E t ptr st) as [x s1|] eqn:Hf; [|discriminate].
    injection Hstep as _ <-.
    destruct (free_ret _ _ _ _ _ Hf) as (_ & _ & _ & _ & _ & _ & _ & _ & H).
    now apply H.
  - rewrite tracking_start_eq in Hstep. injection Hstep as _ <-.
    now rewrite !set_thread_other.
  - rewrite tracking_stop_eq in Hstep. injection Hstep as _ <-.
    now rewrite set_thread_other.
  - rewrite tracking_current_eq in Hstep. now injection Hstep as _ <-.
Qed.

(** While tracking is off, nothing but [tracking_start] touches the
    statistics of the thread, and [tracking_current] reads them. *)
Lemma step_frozen t u c st v st' :
  tracking_enabled (tls st t) = 0 ->
  (u = t -> c <> Cstart) ->
  step E u c st = Ret v st' ->
  tls st' t = tls st t /\
  (u = t -> c = Ccurrent -> v = Vstats (stats (tls st t))).
Proof.
  intros Hoff Hc Hstep.
  destruct (Nat.eq_dec t u) as [<-|Hne].
  - destruct c as [size|ptr| | |]; cbn [step] in Hstep; unfold bind, ret in Hstep.
    + destruct (malloc E t size st) as [p s1|] eqn:Hm; [|discriminate].
      injection Hstep as _ <-.
      destruct (malloc_ret _ _ _ _ _ Hm) as (_ & _ & _ & _ & _ & _ & _ & H & _).
      rewrite counted_disabled in H by exact Hoff. split; [exact H|discriminate].
    + destruct (free E t ptr st) as [x s1|] eqn:Hf; [|discriminate].
      injection Hstep as _ <-.
      destruct (free_ret _ _ _ _ _ Hf) as (_ & _ & _ & _ & _ & _ & _ & H & _).
      rewrite counted_disabled in H by exact Hoff. split; [exact H|discriminate].
    + now destruct Hc.
    + rewrite tracking_stop_eq in Hstep. injection Hstep as _ <-.
      rewrite set_thread_same. split; [|discriminate].
      destruct (tls st t) as [en s0]. cbn in *. now subst en.
    + rewrite tracking_current_eq in Hstep. injection Hstep as <- <-.
      split; auto.
  - split; [|congruence]. eapply step_frame; eauto.
Qed.

(** ** Schedules *)

Lemma run_cons u c tr st log st' :
  run E ((u, c) :: tr) st = Ret log st' ->
  exists v s1 log',
    step E u c st = Ret v s1 /\ run E tr s1 = Ret log' st' /\
    log = mkEvent u c v :: log'.
Proof.
  cbn [run]. unfold bind, ret.
  destruct (step E u c st) as [v s1|]; [|discriminate].
  destruct (run E tr s1) as [log' s2|] eqn:Hrun; [|discriminate].
  intros [= <- <-]. exists v, s1, log'. auto.
Qed.

(** A thread whose tracking is off and that does not call
    [tracking_start] keeps its statistics, whatever it and the other
    threads do. *)
Lemma frozen_run t tr : forall st log st',
  tracking_enabled (tls st t) = 0 ->
  Forall (no_start t) tr ->
  run E tr st = Ret log st' ->
  tls st' t = tls st t /\ Forall (current_reads t (stats (tls st t))) log.
Proof.
  induction tr as [|[u c] tr IH]; intros st log st' Hoff Hns Hrun.
  - injection Hrun as <- <-. split; [reflexivity|constructor].
  - apply run_cons in Hrun as (v & s1 & log' & Hstep & Hrun & ->).
    inversion Hns as [|? ? Hhd Htl]; subst.
    destruct (step_frozen t u c st v s1 Hoff Hhd Hstep) as (Hs1 & Hcur).
    destruct (IH s1 log' st') as (Hfin & Hlog); auto.
    { now rewrite Hs1. }
    rewrite Hs1 in Hfin, Hlog. split; [exact Hfin|].
    constructor; [|exact Hlog].
    intros Ht Hcall. cbn in *. now apply Hcur.
Qed.

Lemma step_malloc t size st v st' :
  step E t (Cmalloc size) st = Ret v st' ->
  exists p, v = Vptr p /\ malloc E t size st = Ret p st'.
Proof.
  cbn [step]. unfold bind, ret.
  destruct (malloc E t size st) as [p s1|]; [|discriminate].
  intros [= <- <-]. now exists p.
Qed.

Lemma step_free t ptr st v st' :
  step E t (Cfree ptr) st = Ret v st' ->
  v = Vvoid /\ free E t ptr st = Ret tt st'.
Proof.
  cbn [step]. unfold bind, ret.
  destruct (free E t ptr st) as [[] s1|]; [|discriminate].
  now intros [= <- <-].
Qed.

Lemma count_allocation_wf size s : stats_wf s -> stats_wf (count_allocation size s).
Proof.
  intros (Ha & Hd & Hb). unfold stats_wf, count_allocation. cbn.
  split; [|split]; try apply uint64_range; assumption.
Qed.

Lemma count_deallocation_wf s : stats_wf s -> stats_wf (count_deallocation s).
Proof.
  intros (Ha & Hd & Hb). unfold stats_wf, count_deallocation. cbn.
  split; [|split]; try apply uint64_range; assumption.
Qed.

Lemma advance_zero s : stats_wf s -> advance s 0 0 0 = s.
Proof.
  intros (Ha & Hd & Hb). destruct s as [a d b]. unfold advance. cbn in *.
  now rewrite !Z.add_0_r, !uint64_small.
Qed.

Lemma advance_allocation size s n m b :
  advance (count_allocation size s) n m b = advance s (1 + n) m (size + b).
Proof.
  unfold advance, count_allocation.
  cbn [allocations deallocations bytes_allocated].
  rewrite !uint64_add_l. f_equal; f_equal; lia.
Qed.

Lemma advance_deallocation s n m b :
  advance (count_deallocation s) n m b = advance s n (1 + m) b.
Proof.
  unfold advance, count_deallocation.
  cbn [allocations deallocations bytes_allocated].
  rewrite !uint64_add_l. f_equal; f_equal; lia.
Qed.

(** Inside a window: what the successful allocations and the releases of
    thread [t] add up to, the other threads doing as they like. *)
Lemma window_run t tr : forall st log st',
  tracking_enabled (tls st t) <> 0 ->
  stats_wf (stats (tls st t)) ->
  run E tr st = Ret log st' ->
  Forall (window_traffic t) log ->
  tracking_enabled (tls st' t) = tracking_enabled (tls st t) /\
  stats (tls st' t) =
    advance (stats (tls st t)) (count (mallocs_of t log))
            (count (frees_of t log)) (sum (mallocs_of t log)).
Proof.
  induction tr as [|[u c] tr IH]; intros st log st' Hon Hwf Hrun Hwin.
  - injection Hrun as <- <-. cbn. now rewrite advance_zero.
  - apply run_cons in Hrun as (v & s1 & log' & Hstep & Hrun & ->).
    inversion Hwin as [|? ? Hhd Htl]; subst.
    destruct (Nat.eq_dec u t) as [->|Hne].
    + specialize (Hhd eq_refl). cbn in Hhd.
      destruct c as [size|ptr| | |]; try contradiction.
      * apply step_malloc in Hstep as (p & -> & Hm).
        destruct (malloc_ret _ _ _ _ _ Hm) as (_ & _ & _ & _ & _ & _ & _ & Ht & _).
        assert (Hc : counted (tls st t) p = true) by now apply counted_true.
        rewrite Hc in Ht.
        destruct (IH s1 log' st') as (Hen & Hst); auto.
        { now rewrite Ht. }
        { rewrite Ht. now apply count_allocation_wf. }
        rewrite Ht in Hen, Hst. cbn in Hen, Hst. split; [exact Hen|].
        cbn [mallocs_of frees_of ev_call ev_tid]. rewrite Nat.eqb_refl.
        now rewrite Hst, advance_allocation, count_cons, sum_cons.
      * apply step_free in Hstep as (-> & Hf).
        destruct (free_ret _ _ _ _ _ Hf) as (_ & _ & _ & _ & _ & _ & _ & Ht & _).
        assert (Hc : counted (tls st t) ptr = true) by now apply counted_true.
        rewrite Hc in Ht.
        destruct (IH s1 log' st') as (Hen & Hst); auto.
        { now rewrite Ht. }
        { rewrite Ht. now apply count_deallocation_wf. }
        rewrite Ht in Hen, Hst. cbn in Hen, Hst. split; [exact Hen|].
        cbn [mallocs_of frees_of ev_call ev_tid]. rewrite Nat.eqb_refl.
        now rewrite Hst, advance_deallocation, count_cons.
    + assert (Hfr : tls s1 t = tls st t) by (eapply step_frame; eauto).
      destruct (IH s1 log' st') as (Hen & Hst); auto.
      { now rewrite Hfr. }
      { now rewrite Hfr. }
      rewrite Hfr in Hen, Hst. split; [exact Hen|].
      apply Nat.eqb_neq in Hne.
      cbn [mallocs_of frees_of ev_call ev_tid]. rewrite Hne.
      now destruct c.
Qed.

(** ** The bindings over the life of the process *)

(** What the initialisation, when it returns, has done to the bindings. *)
Lemma once_outcome_bindings st s1 :
  once_outcome st = Ret tt s1 ->
  (init_once st = ONCE_DONE /\ s1 = st) \/
  (init_once st = PTHREAD_ONCE_INIT /\ init_once s1 = ONCE_DONE /\
   real_malloc s1 = dlsym_next E "malloc" /\
   real_free s1 = dlsym_next E "free").
Proof.
  intros Ho. destruct (once_outcome_ret _ _ _ Ho) as (_ & _ & _ & Hnp & Hs1).
  destruct (init_once st) eqn:Hst.
  - right. subst s1. now repeat split.
  - now destruct Hnp.
  - left. now split.
Qed.

(** A call either leaves the resolver as it was or is the one that
    initialises it. *)
Lemma step_bindings t c st v st' :
  step E t c st = Ret v st' ->
  (init_once st' = init_once st /\ real_malloc st' = real_malloc st /\
   real_free st' = real_free st) \/
  (init_once st = PTHREAD_ONCE_INIT /\ init_once st' = ONCE_DONE /\
   real_malloc st' = dlsym_next E "malloc" /\
   real_free st' = dlsym_next E "free").
Proof.
  intros Hstep. destruct c as [size|ptr| | |].
  - apply step_malloc in Hstep as (p & _ & Hm).
    destruct (malloc_ret _ _ _ _ _ Hm) as (s1 & Ho & _ & _ & Hrm & Hrf & Hd & _).
    destruct (once_outcome_bindings _ _ Ho) as [(Hst & ->)|(Hst & _ & Hm1 & Hf1)].
    + left. rewrite Hst. auto.
    + right. rewrite Hrm, Hrf. auto.
  - apply step_free in Hstep as (_ & Hf).
    destruct (free_ret _ _ _ _ _ Hf) as (s1 & Ho & _ & _ & Hrm & Hrf & Hd & _).
    destruct (once_outcome_bindings _ _ Ho) as [(Hst & ->)|(Hst & _ & Hm1 & Hf1)].
    + left. rewrite Hst. auto.
    + right. rewrite Hrm, Hrf. auto.
  - cbn [step] in Hstep. unfold bind, ret in Hstep.
    rewrite tracking_start_eq in Hstep. injection Hstep as _ <-. left. auto.
  - cbn [step] in Hstep. unfold bind, ret in Hstep.
    rewrite tracking_stop_eq in Hstep. injection Hstep as _ <-. left. auto.
  - cbn [step] in Hstep. unfold bind, ret in Hstep.
    rewrite tracking_current_eq in Hstep. injection Hstep as _ <-. left. auto.
Qed.

Lemma reachable_bindings st : reachable E st -> bindings_inv st.
Proof.
  induction 1 as [h|st t c v st' Hreach IH Hstep].
  - cbn. auto.
  - unfold bindings_inv in *.
    destruct (step_bindings _ _ _ _ _ Hstep)
      as [(Ho & Hm & Hf)|(_ & Ho & Hm & Hf)].
    + now rewrite Ho, Hm, Hf.
    + now rewrite Ho.
Qed.

(** Once initialised, the bindings stay what they are. *)
Lemma run_bindings tr : forall st log st',
  init_once st = ONCE_DONE ->
  run E tr st = Ret log st' ->
  init_once st' = ONCE_DONE /\ real_malloc st' = real_malloc st /\
  real_free st' = real_free st.
Proof.
  induction tr as [|[u c] tr IH]; intros st log st' Hd Hrun.
  - injection Hrun as _ <-. auto.
  - apply run_cons in Hrun as (v & s1 & log' & Hstep & Hrun & _).
    destruct (step_bindings _ _ _ _ _ Hstep)
      as [(Ho & Hm & Hf)|(Ho & _)]; [|congruence].
    rewrite Hd in Ho. destruct (IH _ _ _ Ho Hrun) as (? & ? & ?).
    repeat split; congruence.
Qed.

(** A resolver that can serve one call can serve them all. *)
Lemma step_serviceable t c st :
  serviceable st ->
  exists v st', step E t c st = Ret v st' /\ serviceable st'.
Proof.
  intros Hs.
  assert (Hkeep : forall v st', step E t c st = Ret v st' -> serviceable st').
  { intros v st' Hstep. unfold serviceable in *.
    destruct (step_bindings _ _ _ _ _ Hstep)
      as [(Ho & Hm & Hf)|(Hi & Ho & Hm & Hf)].
    - now rewrite Ho, Hm, Hf.
    - rewrite Hi in Hs. destruct Hs as (_ & _ & ? & ?).
      rewrite Ho, Hm, Hf. auto. }
  destruct c as [size|ptr| | |].
  - destruct (malloc_serviceable t size st Hs) as (st' & Hm).
    assert (Hstep : step E t (Cmalloc size) st =
                    Ret (Vptr (fst (libc_malloc E size (libc_heap st)))) st').
    { cbn [step]. unfold bind, ret. now rewrite Hm. }
    eauto.
  - destruct (free_serviceable t ptr st Hs) as (st' & Hf).
    assert (Hstep : step E t (Cfree ptr) st = Ret Vvoid st').
    { cbn [step]. unfold bind, ret. now rewrite Hf. }
    eauto.
  - eexists _, _. split; [|eapply Hkeep];
      cbn [step]; unfold bind, ret; rewrite tracking_start_eq; reflexivity.
  - eexists _, _. split; [|eapply Hkeep];
      cbn [step]; unfold bind, ret; rewrite tracking_stop_eq; reflexivity.
  - eexists _, _. split; [|eapply Hkeep];
      cbn [step]; unfold bind, ret; rewrite tracking_current_eq; reflexivity.
Qed.

Lemma run_serviceable tr : forall st,
  serviceable st -> exists log st', run E tr st = Ret log st'.
Proof.
  induction tr as [|[u c] tr IH]; intros st Hs.
  - now exists [], st.
  - destruct (step_serviceable u c st Hs) as (v & s1 & Hstep & Hs1).
    destruct (IH s1 Hs1) as (log & st' & Hrun).
    exists (mkEvent u c v :: log), st'.
    cbn [run]. unfold bind, ret. now rewrite Hstep, Hrun.
Qed.

Lemma reachable_stats_wf st : reachable E st -> forall t, stats_wf (stats (tls st t)).
Proof.
  induction 1 as [h|st u c v st' Hreach IH Hstep]; intros t.
  - cbn. unfold stats_wf, UINT64_MOD. cbn. lia.
  - destruct (Nat.eq_dec t u) as [->|Hne].
    + specialize (IH u). destruct c as [size|ptr| | |].
      * apply step_malloc in Hstep as (p & _ & Hm).
        destruct (malloc_ret _ _ _ _ _ Hm) as (_ & _ & _ & _ & _ & _ & _ & Ht & _).
        rewrite Ht. destruct (counted (tls st u) p); auto.
        now apply count_allocation_wf.
      * apply step_free in Hstep as (_ & Hf).
        destruct (free_ret _ _ _ _ _ Hf) as (_ & _ & _ & _ & _ & _ & _ & Ht & _).
        rewrite Ht. destruct (counted (tls st u) ptr); auto.
        now apply count_deallocation_wf.
      * cbn [step] in Hstep. unfold bind, ret in Hstep.
        rewrite tracking_start_eq in Hstep. injection Hstep as _ <-.
        rewrite set_thread_same. unfold stats_wf, UINT64_MOD. cbn. lia.
      * cbn [step] in Hstep. unfold bind, ret in Hstep.
        rewrite tracking_stop_eq in Hstep. injection Hstep as _ <-.
        now rewrite set_thread_same.
      * cbn [step] in Hstep. unfold bind, ret in Hstep.
        rewrite tracking_current_eq in Hstep. now injection Hstep as _ <-.
    + erewrite step_frame; eauto.
Qed.

(** ** The claims of the specification *)

(** C1, counting correctness.  A thread calls [tracking_start], then makes
    N calls of [malloc] that all return a non-null pointer and M calls of
    [free] on non-null pointers, other threads doing what they like in the
    meantime.  [tracking_stop] then returns the record whose three
    [uint64_t] fields hold N, M and the sum of the N sizes: the values
    reduced modulo [2^64], hence N, M and the sum themselves whenever these
    fit in 64 bits. *)
Theorem counting_correctness t st st0 tr log st1 :
  tracking_start E t st = Ret tt st0 ->
  run E tr st0 = Ret log st1 ->
  Forall (window_traffic t) log ->
  exists st2,
    tracking_stop E t st1 =
      Ret (mkStats (uint64 (count (mallocs_of t log)))
                   (uint64 (count (frees_of t log)))
                   (uint64 (sum (mallocs_of t log)))) st2 /\
    (count (mallocs_of t log) < UINT64_MOD ->
     count (frees_of t log) < UINT64_MOD ->
     0 <= sum (mallocs_of t log) < UINT64_MOD ->
     tracking_stop E t st1 =
       Ret (mkStats (count (mallocs_of t log))
                    (count (frees_of t log))
                    (sum (mallocs_of t log))) st2).
Proof.
  intros Hstart Hrun Hwin.
  assert (Ht0 : tls st0 t = mkThread 1 stats_zero).
  { rewrite tracking_start_eq in Hstart. injection Hstart as <-.
    apply set_thread_same. }
  destruct (window_run t tr st0 log st1) as (_ & Hst); auto.
  { now rewrite Ht0. }
  { rewrite Ht0. unfold stats_wf, UINT64_MOD. cbn. lia. }
  rewrite Ht0 in Hst.
  unfold advance in Hst. cbn [stats stats_zero allocations deallocations
                              bytes_allocated] in Hst.
  rewrite !Z.add_0_l in Hst.
  eexists. rewrite tracking_stop_eq, Hst. split; [reflexivity|].
  intros Hn Hm Hb. rewrite !uint64_small; [reflexivity|unfold count in *; lia..].
Qed.

(** C4, reset on start.  In every state, [tracking_start] returns and
    leaves the calling thread with all three counters at zero and the
    enabled flag set; it does so whether or not a window was open, and it
    touches no other thread. *)
Theorem tracking_start_resets t st :
  exists st',
    tracking_start E t st = Ret tt st' /\
    tls st' t = mkThread 1 stats_zero /\
    (forall u, u <> t -> tls st' u = tls st u).
Proof.
  eexists. rewrite tracking_start_eq. split; [reflexivity|]. split.
  - apply set_thread_same.
  - intros u Hu. now rewrite !set_thread_other.
Qed.

(** C5, freeze on stop.  After [tracking_stop] has returned [s], and for
    as long as the thread does not call [tracking_start], no schedule of
    calls (its own [malloc], [free], [tracking_current] and
    [tracking_stop], anything on other threads) changes the statistics of
    the thread: each of its [tracking_current] calls returns [s]. *)
Theorem freeze_on_stop t st s st1 tr log st2 :
  tracking_stop E t st = Ret s st1 ->
  Forall (no_start t) tr ->
  run E tr st1 = Ret log st2 ->
  stats (tls st2 t) = s /\
  Forall (current_reads t s) log /\
  tracking_current E t st2 = Ret s st2.
Proof.
  intros Hstop Hns Hrun.
  assert (Ht1 : tls st1 t = mkThread 0 s).
  { rewrite tracking_stop_eq in Hstop. injection Hstop as <- <-.
    apply set_thread_same. }
  destruct (frozen_run t tr st1 log st2) as (Ht & Hlog); auto.
  { now rewrite Ht1. }
  rewrite Ht1 in Ht, Hlog. cbn [stats] in Hlog.
  rewrite tracking_current_eq, Ht. auto.
Qed.

(** C6, null safety.  Whatever the state of the calling thread, and the
    resolver being able to serve the call, [free(NULL)] returns, changes
    no counter of any thread, and has passed the null pointer to the real
    deallocation primitive. *)
Theorem free_null t st :
  serviceable st ->
  exists st',
    free E t 0 st = Ret tt st' /\
    (forall u, tls st' u = tls st u) /\
    libc_heap st' = libc_free E 0 (libc_heap st).
Proof.
  intros Hs. destruct (free_serviceable t 0 st Hs) as (st' & Hf).
  exists st'. split; [exact Hf|].
  destruct (free_ret _ _ _ _ _ Hf) as (_ & _ & _ & Hh & _ & _ & _ & Ht & Hu).
  rewrite counted_null in Ht. split; [|exact Hh].
  intros u. destruct (Nat.eq_dec u t) as [->|Hne]; auto.
Qed.

(** C7, transparency of [malloc].  The resolver being able to serve the
    call, [malloc(size)] returns exactly what the real allocation
    primitive returns for [size].  When that is null no counter of any
    thread changes; when it is non-null and tracking is enabled on the
    calling thread, the allocation count goes up by one and
    [bytes_allocated] by [size] (in [uint64_t] arithmetic), the
    deallocation count staying as it was. *)
Theorem malloc_transparent t size st p h :
  serviceable st ->
  libc_malloc E size (libc_heap st) = (p, h) ->
  exists st',
    malloc E t size st = Ret p st' /\
    libc_heap st' = h /\
    (p = 0 -> forall u, tls st' u = tls st u) /\
    (p <> 0 -> tracking_enabled (tls st t) <> 0 ->
     allocations (stats (tls st' t)) =
       uint64 (allocations (stats (tls st t)) + 1) /\
     bytes_allocated (stats (tls st' t)) =
       uint64 (bytes_allocated (stats (tls st t)) + size) /\
     deallocations (stats (tls st' t)) = deallocations (stats (tls st t))).
Proof.
  intros Hs Hreal. destruct (malloc_serviceable t size st Hs) as (st' & Hm).
  rewrite Hreal in Hm. cbn [fst] in Hm.
  exists st'. split; [exact Hm|].
  destruct (malloc_ret _ _ _ _ _ Hm) as (_ & _ & _ & Hh & _ & _ & _ & Ht & Hu).
  rewrite Hreal in Hh. injection Hh as <-.
  split; [reflexivity|]. split.
  - intros ->. rewrite counted_null in Ht.
    intros u. destruct (Nat.eq_dec u t) as [->|Hne]; auto.
  - intros Hp Hon.
    assert (Hc : counted (tls st t) p = true) by now apply counted_true.
    rewrite Hc in Ht. rewrite Ht. cbn. auto.
Qed.

(** C8, thread isolation.  In a process started from its initial state, a
    thread that never calls [tracking_start] reads all-zero statistics at
    each of its [tracking_current] calls, whatever [malloc] and [free]
    calls it makes itself and whatever the other threads do, tracking
    included. *)
Theorem thread_isolation t heap0 tr log st :
  Forall (no_start t) tr ->
  run E tr (initial_state E heap0) = Ret log st ->
  Forall (current_reads t stats_zero) log /\
  tracking_current E t st = Ret stats_zero st.
Proof.
  intros Hns Hrun.
  destruct (frozen_run t tr (initial_state E heap0) log st) as (Ht & Hlog); auto.
  split; [exact Hlog|]. now rewrite tracking_current_eq, Ht.
Qed.

(** C9, monotone counters.  Across a call of [malloc] or [free] by the
    thread, each of its three counters is at least what it was, overflow
    of a 64-bit counter being left aside: the call is assumed not to take
    a counter past [2^64 - 1].  (Between two such calls the counters do
    not move, see [step_frame].) *)
Theorem counters_monotone t c st v st' :
  is_traffic c ->
  stats_wf (stats (tls st t)) ->
  no_overflow (stats (tls st t)) c ->
  step E t c st = Ret v st' ->
  stats_le (stats (tls st t)) (stats (tls st' t)).
Proof.
  intros Hc (Ha & Hd & Hb) Hno Hstep.
  destruct c as [size|ptr| | |]; try contradiction; cbn in Hno.
  - apply step_malloc in Hstep as (p & _ & Hm).
    destruct (malloc_ret _ _ _ _ _ Hm) as (_ & _ & _ & _ & _ & _ & _ & Ht & _).
    rewrite Ht. destruct (counted (tls st t) p); unfold stats_le.
    + cbn [stats count_allocation allocations deallocations bytes_allocated].
      rewrite !uint64_small by lia. lia.
    + lia.
  - apply step_free in Hstep as (_ & Hf).
    destruct (free_ret _ _ _ _ _ Hf) as (_ & _ & _ & _ & _ & _ & _ & Ht & _).
    rewrite Ht. destruct (counted (tls st t) ptr); unfold stats_le.
    + cbn [stats count_deallocation allocations deallocations bytes_allocated].
      rewrite !uint64_small by lia. lia.
    + lia.
Qed.

(** C10, every release counts.  While tracking is enabled on a thread and
    the resolver can serve the call, [free(ptr)] with any non-null [ptr]
    returns, adds one to the deallocation count of the thread (in
    [uint64_t] arithmetic) and changes neither of the other two counters.
    Nothing is asked of [ptr] but to be non-null: where it comes from
    plays no part. *)
Theorem free_counts t ptr st :
  serviceable st ->
  tracking_enabled (tls st t) <> 0 ->
  ptr <> 0 ->
  exists st',
    free E t ptr st = Ret tt st' /\
    deallocations (stats (tls st' t)) =
      uint64 (deallocations (stats (tls st t)) + 1) /\
    allocations (stats (tls st' t)) = allocations (stats (tls st t)) /\
    bytes_allocated (stats (tls st' t)) = bytes_allocated (stats (tls st t)) /\
    libc_heap st' = libc_free E ptr (libc_heap st).
Proof.
  intros Hs Hon Hp. destruct (free_serviceable t ptr st Hs) as (st' & Hf).
  exists st'. split; [exact Hf|].
  destruct (free_ret _ _ _ _ _ Hf) as (_ & _ & _ & Hh & _ & _ & _ & Ht & _).
  assert (Hc : counted (tls st t) ptr = true) by now apply counted_true.
  rewrite Hc in Ht. rewrite Ht. cbn. auto.
Qed.

(** C2 as the code has it.  In a process whose one-time initialisation has
    completed, the two bindings are what [dlsym] returned for "malloc" and
    "free" (non-null exactly when the symbol was found), no later call
    changes them, and when both are non-null every schedule of calls runs
    to its end: no call goes through a null function pointer. *)
Theorem bindings_after_init st :
  reachable E st ->
  init_once st = ONCE_DONE ->
  (real_malloc st = dlsym_next E "malloc" /\
   real_free st = dlsym_next E "free") /\
  (forall tr log st',
     run E tr st = Ret log st' ->
     init_once st' = ONCE_DONE /\
     real_malloc st' = real_malloc st /\ real_free st' = real_free st) /\
  (real_malloc st <> 0 -> real_free st <> 0 ->
   forall tr, exists log st', run E tr st = Ret log st').
Proof.
  intros Hreach Hd. split; [|split].
  - apply reachable_bindings in Hreach. unfold bindings_inv in Hreach.
    now rewrite Hd in Hreach.
  - intros tr log st' Hrun. eapply run_bindings; eauto.
  - intros Hm Hf tr. apply run_serviceable.
    unfold serviceable. rewrite Hd. auto.
Qed.

(** C3 as the code has it.  A call of [malloc] that arrives while the
    one-time initialisation is in progress enters [pthread_once] again and
    blocks there; the state in which it blocks is the state in which it
    was called, so that no counter of any thread has moved. *)
Theorem reentrant_malloc_blocks t size st :
  init_once st = ONCE_IN_PROGRESS ->
  malloc E t size st = Halt Deadlock st.
Proof. intros H. unfold malloc. now apply malloc_fuel_in_progress. Qed.

End Properties.

(** * The properties on the sample execution *)


Lemma counting_correctness_witness :
  exists st2,
    tracking_stop toy_env 0%nat sample_tracking = Ret (mkStats 2 1 30) st2.
Proof.
  destruct (counting_correctness toy_env 0%nat boot sample_opened
              sample_window sample_log sample_tracking) as (st2 & _ & Hexact).
  - reflexivity.
  - reflexivity.
  - vm_compute sample_log. each_event.
  - exists st2. apply Hexact; vm_compute; intuition discriminate.
Defined.

Lemma freeze_on_stop_witness :
  stats (tls (final_state (run toy_env sample_after_stop sample_stopped)) 0%nat)
    = mkStats 2 1 30 /\
  Forall (current_reads 0%nat (mkStats 2 1 30))
         (returned [] (run toy_env sample_after_stop sample_stopped)) /\
  tracking_current toy_env 0%nat
      (final_state (run toy_env sample_after_stop sample_stopped))
    = Ret (mkStats 2 1 30)
          (final_state (run toy_env sample_after_stop sample_stopped)).
Proof.
  apply (freeze_on_stop toy_env 0%nat sample_tracking (mkStats 2 1 30)
           sample_stopped sample_after_stop).
  - reflexivity.
  - unfold sample_after_stop. each_event.
  - reflexivity.
Defined.

Lemma free_null_witness :
  exists st',
    free toy_env 0%nat 0 sample_tracking = Ret tt st' /\
    (forall u, tls st' u = tls sample_tracking u) /\
    libc_heap st' = libc_free toy_env 0 (libc_heap sample_tracking).
Proof.
  apply (free_null toy_env 0%nat sample_tracking).
  vm_compute. split; discriminate.
Defined.

Lemma malloc_transparent_witness :
  exists st',
    malloc toy_env 0%nat 24 sample_tracking = Ret 4164 st' /\
    libc_heap st' = 4188 /\
    (4164 = 0 -> forall u, tls st' u = tls sample_tracking u) /\
    (4164 <> 0 -> tracking_enabled (tls sample_tracking 0%nat) <> 0 ->
     allocations (stats (tls st' 0%nat)) =
       uint64 (allocations (stats (tls sample_tracking 0%nat)) + 1) /\
     bytes_allocated (stats (tls st' 0%nat)) =
       uint64 (bytes_allocated (stats (tls sample_tracking 0%nat)) + 24) /\
     deallocations (stats (tls st' 0%nat)) =
       deallocations (stats (tls sample_tracking 0%nat))).
Proof.
  apply (malloc_transparent toy_env 0%nat 24 sample_tracking 4164 4188).
  - vm_compute. split; discriminate.
  - reflexivity.
Defined.

Lemma thread_isolation_witness :
  Forall (current_reads 1%nat stats_zero)
         (returned [] (run toy_env sample_untracked boot)) /\
  tracking_current toy_env 1%nat
      (final_state (run toy_env sample_untracked boot))
    = Ret stats_zero (final_state (run toy_env sample_untracked boot)).
Proof.
  apply (thread_isolation toy_env 1%nat 4096 sample_untracked).
  - unfold sample_untracked. each_event.
  - reflexivity.
Defined.

Lemma counters_monotone_witness :
  stats_le (stats (tls sample_tracking 0%nat))
           (stats (tls (final_state (step toy_env 0%nat (Cmalloc 24) sample_tracking))
                       0%nat)).
Proof.
  apply (counters_monotone toy_env 0%nat (Cmalloc 24) sample_tracking (Vptr 4164)).
  - exact I.
  - vm_compute. intuition discriminate.
  - vm_compute. intuition discriminate.
  - reflexivity.
Defined.

Lemma free_counts_witness :
  exists st',
    free toy_env 0%nat 4128 sample_tracking = Ret tt st' /\
    deallocations (stats (tls st' 0%nat)) =
      uint64 (deallocations (stats (tls sample_tracking 0%nat)) + 1) /\
    allocations (stats (tls st' 0%nat)) =
      allocations (stats (tls sample_tracking 0%nat)) /\
    bytes_allocated (stats (tls st' 0%nat)) =
      bytes_allocated (stats (tls sample_tracking 0%nat)) /\
    libc_heap st' = libc_free toy_env 4128 (libc_heap sample_tracking).
Proof.
  apply (free_counts toy_env 0%nat 4128 sample_tracking).
  - vm_compute. split; discriminate.
  - vm_compute. discriminate.
  - discriminate.
Defined.

(** C2 as the specification has it fails where [dlsym] finds no further
    definition of the symbols: the first [malloc] of the process runs the
    initialisation to its end, both bindings are null, and the call goes
    through the null [real_malloc]. *)
Lemma bindings_nonnull_counterexample :
  malloc unresolved_env 0%nat 8 (initial_state unresolved_env 4096)
    = Halt NullCall
           (mkState (E := unresolved_env)
                    0 0 ONCE_DONE (fun _ => thread_vars_init) 4096).
Proof. reflexivity. Qed.

Lemma bindings_after_init_witness :
  (real_malloc sample_served = 4198400 /\
   real_free sample_served = 4198912) /\
  (forall tr log st',
     run toy_env tr sample_served = Ret log st' ->
     init_once st' = ONCE_DONE /\
     real_malloc st' = real_malloc sample_served /\
     real_free st' = real_free sample_served) /\
  (real_malloc sample_served <> 0 ->
   real_free sample_served <> 0 ->
   forall tr, exists log st', run toy_env tr sample_served = Ret log st').
Proof.
  apply (bindings_after_init toy_env sample_served).
  - apply (reachable_step toy_env boot 0%nat (Cmalloc 8) (Vptr 4096)).
    + apply reachable_init.
    + reflexivity.
  - reflexivity.
Defined.

(** C3 as the specification has it fails where [dlsym] allocates: the
    first [malloc] of the process starts the initialisation, [dlsym] asks
    for 64 bytes, and that call blocks in [pthread_once]. *)
Lemma reentrancy_counterexample :
  malloc reentrant_env 0%nat 8 (initial_state reentrant_env 4096)
    = Halt Deadlock sample_initialising.
Proof. reflexivity. Qed.

Lemma reentrant_malloc_blocks_witness :
  malloc reentrant_env 0%nat 64 sample_initialising
    = Halt Deadlock sample_initialising.
Proof.
  apply (reentrant_malloc_blocks reentrant_env 0%nat 64 sample_initialising).
  reflexivity.
Defined.

(** * Further properties of the code *)

Section Further.

Variable E : environment.

Implicit Types (st : state E) (t u : tid) (size ptr : Z).

(** X1.  [malloc] on a thread that is not tracking.  The resolver being able
    to serve the call, the thread gets what the real primitive returns and
    no thread-local variable of any thread moves, the request succeeding or
    not. *)
Theorem malloc_untracked t size st p h :
  serviceable st ->
  tracking_enabled (tls st t) = 0 ->
  libc_malloc E size (libc_heap st) = (p, h) ->
  exists st',
    malloc E t size st = Ret p st' /\
    libc_heap st' = h /\
    (forall u, tls st' u = tls st u).
Proof.
  intros Hs Hoff Hreal.
  destruct (malloc_serviceable E t size st Hs) as (st' & Hm).
  rewrite Hreal in Hm. cbn [fst] in Hm. exists st'. split; [exact Hm|].
  destruct (malloc_ret E _ _ _ _ _ Hm) as (_ & _ & _ & Hh & _ & _ & _ & Ht & Hu).
  rewrite Hreal in Hh. injection Hh as <-. split; [reflexivity|].
  rewrite counted_disabled in Ht by exact Hoff.
  intros u. destruct (Nat.eq_dec u t) as [->|Hne]; auto.
Qed.

(** X2.  [free] passes every pointer on.  The resolver being able to serve the
    call, [free(ptr)] returns after the real primitive has been called with
    [ptr], tracking or not, null or not; on a thread that is not tracking no
    thread-local variable of any thread moves. *)
Theorem free_forwards t ptr st :
  serviceable st ->
  exists st',
    free E t ptr st = Ret tt st' /\
    libc_heap st' = libc_free E ptr (libc_heap st) /\
    (tracking_enabled (tls st t) = 0 -> forall u, tls st' u = tls st u).
Proof.
  intros Hs. destruct (free_serviceable E t ptr st Hs) as (st' & Hf).
  exists st'. split; [exact Hf|].
  destruct (free_ret E _ _ _ _ _ Hf) as (_ & _ & _ & Hh & _ & _ & _ & Ht & Hu).
  split; [exact Hh|]. intros Hoff.
  rewrite counted_disabled in Ht by exact Hoff.
  intros u. destruct (Nat.eq_dec u t) as [->|Hne]; auto.
Qed.

(** X3.  The tracking API stays away from the allocator.  [tracking_start],
    [tracking_stop] and [tracking_current] return in every state, before
    the initialisation as well as after, and leave the two bindings, the
    once-control and the allocator as they found them. *)
Theorem tracking_api_leaves_allocator t c st :
  ~ is_traffic c ->
  exists v st',
    step E t c st = Ret v st' /\
    real_malloc st' = real_malloc st /\ real_free st' = real_free st /\
    init_once st' = init_once st /\ libc_heap st' = libc_heap st.
Proof.
  intros Hc. destruct c as [size|ptr| | |]; try (now destruct Hc);
    cbn [step]; unfold bind, ret.
  - rewrite tracking_start_eq. eexists _, _. split; [reflexivity|]. auto.
  - rewrite tracking_stop_eq. eexists _, _. split; [reflexivity|]. auto.
  - rewrite tracking_current_eq. eexists _, _. split; [reflexivity|]. auto.
Qed.

(** X4.  A call of [malloc] or [free] never moves the enabled flag of any
    thread; [malloc] never moves a deallocation count, and [free] never
    moves an allocation count or a byte total: nothing is taken off
    [bytes_allocated] when memory is released. *)
Theorem traffic_keeps_other_counters t c st v st' :
  step E t c st = Ret v st' ->
  is_traffic c ->
  forall u,
    tracking_enabled (tls st' u) = tracking_enabled (tls st u) /\
    (forall size, c = Cmalloc size ->
       deallocations (stats (tls st' u)) = deallocations (stats (tls st u))) /\
    (forall ptr, c = Cfree ptr ->
       allocations (stats (tls st' u)) = allocations (stats (tls st u)) /\
       bytes_allocated (stats (tls st' u)) = bytes_allocated (stats (tls st u))).
Proof.
  intros Hstep Hc u.
  destruct c as [size|ptr| | |]; try contradiction.
  - apply step_malloc in Hstep as (p & _ & Hm).
    destruct (malloc_ret E _ _ _ _ _ Hm) as (_ & _ & _ & _ & _ & _ & _ & Ht & Hu).
    assert (Hflag : tracking_enabled (tls st' u) = tracking_enabled (tls st u) /\
                    deallocations (stats (tls st' u)) =
                    deallocations (stats (tls st u))).
    { destruct (Nat.eq_dec u t) as [->|Hne].
      - rewrite Ht. now destruct (counted (tls st t) p).
      - now rewrite Hu. }
    destruct Hflag as (Hf & Hd). split; [exact Hf|]. split.
    + intros _ _. exact Hd.
    + intros ? [=].
  - apply step_free in Hstep as (_ & Hf).
    destruct (free_ret E _ _ _ _ _ Hf) as (_ & _ & _ & _ & _ & _ & _ & Ht & Hu).
    assert (Hall : tracking_enabled (tls st' u) = tracking_enabled (tls st u) /\
                   allocations (stats (tls st' u)) =
                   allocations (stats (tls st u)) /\
                   bytes_allocated (stats (tls st' u)) =
                   bytes_allocated (stats (tls st u))).
    { destruct (Nat.eq_dec u t) as [->|Hne].
      - rewrite Ht. now destruct (counted (tls st t) ptr).
      - now rewrite Hu. }
    destruct Hall as (Hfl & Ha & Hb). split; [exact Hfl|]. split.
    + intros ? [=].
    + intros _ _. auto.
Qed.

(** X5.  Thread-local means thread-local.  Whatever the other threads call,
    [tracking_start] and [tracking_stop] included, and whichever pointers
    they release, the enabled flag and the statistics of a thread that
    makes no call stay as they are. *)
Theorem other_threads_leave_thread t tr : forall st log st',
  Forall (fun tc => fst tc <> t) tr ->
  run E tr st = Ret log st' ->
  tls st' t = tls st t.
Proof.
  induction tr as [|[u c] tr IH]; intros st log st' Hids Hrun.
  - now injection Hrun as _ <-.
  - apply run_cons in Hrun as (v & s1 & log' & Hstep & Hrun & _).
    inversion Hids as [|? ? Hhd Htl]; subst. cbn in Hhd.
    rewrite (IH s1 log' st' Htl Hrun).
    eapply step_frame; eauto.
Qed.

(** *** Windows with failures in them *)

Lemma counted_enabled (v : thread_vars) p :
  tracking_enabled v <> 0 -> counted v p = negb (p =? 0).
Proof.
  intros H. unfold counted. apply Z.eqb_neq in H. now rewrite H.
Qed.

(** Inside an open window, whatever is called short of [tracking_start]
    and [tracking_stop]. *)
Lemma open_window_run t tr : forall st log st',
  tracking_enabled (tls st t) <> 0 ->
  stats_wf (stats (tls st t)) ->
  run E tr st = Ret log st' ->
  Forall (no_window_call t) tr ->
  tracking_enabled (tls st' t) = tracking_enabled (tls st t) /\
  stats (tls st' t) =
    advance (stats (tls st t)) (count (counted_mallocs_of t log))
            (count (counted_frees_of t log)) (sum (counted_mallocs_of t log)).
Proof.
  induction tr as [|[u c] tr IH]; intros st log st' Hon Hwf Hrun Hwin.
  - injection Hrun as <- <-. cbn. now rewrite advance_zero.
  - apply run_cons in Hrun as (v & s1 & log' & Hstep & Hrun & ->).
    inversion Hwin as [|? ? Hhd Htl]; subst.
    destruct (Nat.eq_dec u t) as [->|Hne].
    + destruct (Hhd eq_refl) as (Hns & Hnp). cbn in Hns, Hnp.
      destruct c as [size|ptr| | |]; try congruence.
      * apply step_malloc in Hstep as (p & -> & Hm).
        destruct (malloc_ret E _ _ _ _ _ Hm)
          as (_ & _ & _ & _ & _ & _ & _ & Ht & _).
        rewrite counted_enabled in Ht by exact Hon.
        cbn [counted_mallocs_of counted_frees_of ev_call ev_ret ev_tid].
        rewrite Nat.eqb_refl. cbn [andb].
        destruct (p =? 0); cbn [negb] in Ht |- *.
        -- destruct (IH s1 log' st') as (Hen & Hst); auto;
             try (now rewrite Ht).
           now rewrite Ht in Hen, Hst.
        -- destruct (IH s1 log' st') as (Hen & Hst); auto.
           { now rewrite Ht. }
           { rewrite Ht. now apply count_allocation_wf. }
           rewrite Ht in Hen, Hst. cbn in Hen, Hst. split; [exact Hen|].
           now rewrite Hst, advance_allocation, count_cons, sum_cons.
      * apply step_free in Hstep as (-> & Hf).
        destruct (free_ret E _ _ _ _ _ Hf)
          as (_ & _ & _ & _ & _ & _ & _ & Ht & _).
        rewrite counted_enabled in Ht by exact Hon.
        cbn [counted_mallocs_of counted_frees_of ev_call ev_ret ev_tid].
        rewrite Nat.eqb_refl. cbn [andb].
        destruct (ptr =? 0); cbn [negb] in Ht |- *.
        -- destruct (IH s1 log' st') as (Hen & Hst); auto;
             try (now rewrite Ht).
           now rewrite Ht in Hen, Hst.
        -- destruct (IH s1 log' st') as (Hen & Hst); auto.
           { now rewrite Ht. }
           { rewrite Ht. now apply count_deallocation_wf. }
           rewrite Ht in Hen, Hst. cbn in Hen, Hst. split; [exact Hen|].
           now rewrite Hst, advance_deallocation, count_cons.
      * cbn [step] in Hstep. unfold bind, ret in Hstep.
        rewrite tracking_current_eq in Hstep. injection Hstep as <- <-.
        cbn [counted_mallocs_of counted_frees_of ev_call ev_ret ev_tid].
        now apply IH.
    + assert (Hfr : tls s1 t = tls st t) by (eapply step_frame; eauto).
      destruct (IH s1 log' st') as (Hen & Hst); auto;
        try (now rewrite Hfr).
      rewrite Hfr in Hen, Hst. split; [exact Hen|].
      apply Nat.eqb_neq in Hne.
      cbn [counted_mallocs_of counted_frees_of ev_call ev_ret ev_tid].
      rewrite Hne. cbn [andb]. now destruct c, v.
Qed.

(** X6.  Running totals.  After [tracking_start], and whatever the thread and
    the others call as long as the thread calls neither [tracking_start]
    nor [tracking_stop], [tracking_current] returns the number of the
    [malloc] calls of the thread that returned non-null, the number of its
    [free] calls on non-null pointers and the bytes of the former (as
    64-bit values): a request that fails, a null release and a reading in
    between count for nothing, and the window is still open. *)
Theorem window_running_totals t st st0 tr log st1 :
  tracking_start E t st = Ret tt st0 ->
  run E tr st0 = Ret log st1 ->
  Forall (no_window_call t) tr ->
  tracking_current E t st1 =
    Ret (mkStats (uint64 (count (counted_mallocs_of t log)))
                 (uint64 (count (counted_frees_of t log)))
                 (uint64 (sum (counted_mallocs_of t log)))) st1 /\
  tracking_enabled (tls st1 t) = 1.
Proof.
  intros Hstart Hrun Hwin.
  assert (Ht0 : tls st0 t = mkThread 1 stats_zero).
  { rewrite tracking_start_eq in Hstart. injection Hstart as <-.
    apply set_thread_same. }
  destruct (open_window_run t tr st0 log st1) as (Hen & Hst); auto.
  { now rewrite Ht0. }
  { rewrite Ht0. unfold stats_wf, UINT64_MOD. cbn. lia. }
  rewrite Ht0 in Hen, Hst. cbn [tracking_enabled] in Hen.
  unfold advance in Hst. cbn [stats stats_zero allocations deallocations
                              bytes_allocated] in Hst.
  rewrite !Z.add_0_l in Hst.
  split; [|exact Hen]. now rewrite tracking_current_eq, Hst.
Qed.

(** *** Invariants of the thread-local variables *)

Lemma step_flag t u c st v st' :
  step E u c st = Ret v st' ->
  tracking_enabled (tls st' t) = tracking_enabled (tls st t) \/
  tracking_enabled (tls st' t) = 0 \/ tracking_enabled (tls st' t) = 1.
Proof.
  intros Hstep. destruct (Nat.eq_dec t u) as [->|Hne].
  - destruct c as [size|ptr| | |].
    + apply step_malloc in Hstep as (p & _ & Hm).
      destruct (malloc_ret E _ _ _ _ _ Hm)
        as (_ & _ & _ & _ & _ & _ & _ & Ht & _).
      left. rewrite Ht. now destruct (counted (tls st u) p).
    + apply step_free in Hstep as (_ & Hf).
      destruct (free_ret E _ _ _ _ _ Hf)
        as (_ & _ & _ & _ & _ & _ & _ & Ht & _).
      left. rewrite Ht. now destruct (counted (tls st u) ptr).
    + cbn [step] in Hstep. unfold bind, ret in Hstep.
      rewrite tracking_start_eq in Hstep. injection Hstep as _ <-.
      right. right. now rewrite set_thread_same.
    + cbn [step] in Hstep. unfold bind, ret in Hstep.
      rewrite tracking_stop_eq in Hstep. injection Hstep as _ <-.
      right. left. now rewrite set_thread_same.
    + cbn [step] in Hstep. unfold bind, ret in Hstep.
      rewrite tracking_current_eq in Hstep. injection Hstep as _ <-. now left.
  - left. erewrite step_frame; eauto.
Qed.

(** X7.  In every state a process can be in, the enabled flag of every thread
    is 0 or 1 and each of its three counters is a 64-bit value. *)
Theorem thread_vars_invariant st :
  reachable E st ->
  forall t,
    (tracking_enabled (tls st t) = 0 \/ tracking_enabled (tls st t) = 1) /\
    stats_wf (stats (tls st t)).
Proof.
  intros Hreach t. split; [|now apply reachable_stats_wf].
  induction Hreach as [h|st u c v st' Hreach IH Hstep].
  - now left.
  - destruct (step_flag t u c st v st' Hstep) as [Heq|[H0|H1]]; auto.
    now rewrite Heq.
Qed.

(** *** Transparency *)

Lemma once_outcome_same (a b : state E) s1 :
  same_allocator a b ->
  once_outcome a = Ret tt s1 ->
  exists s2, once_outcome b = Ret tt s2 /\ same_allocator s1 s2.
Proof.
  intros (Hm & Hf & Ho & Hh). unfold once_outcome. rewrite <- Ho.
  destruct (init_once a) eqn:Ha; try discriminate.
  - destruct (dlsym_mallocs E "malloc"); try discriminate.
    destruct (dlsym_mallocs E "free"); try discriminate.
    intros [= <-]. eexists. split; [reflexivity|].
    unfold same_allocator. cbn. repeat split; congruence.
  - intros [= <-]. exists b. split; [reflexivity|].
    unfold same_allocator. repeat split; congruence.
Qed.

Lemma malloc_returns t size st s1 :
  once_outcome st = Ret tt s1 ->
  real_malloc s1 <> 0 ->
  exists st',
    malloc E t size st = Ret (fst (libc_malloc E size (libc_heap st))) st'.
Proof.
  intros Ho Hm. rewrite malloc_unfold.
  unfold malloc_body, bind, call_real_malloc, get_thread, put_thread, ret.
  rewrite Ho. apply Z.eqb_neq in Hm. rewrite Hm.
  destruct (once_outcome_ret E _ _ _ Ho) as (_ & Hheap & _). rewrite Hheap.
  destruct (libc_malloc E size (libc_heap st)) as [q h]. cbn [fst].
  match goal with |- context [if ?c then _ else _] => destruct c end;
    eexists; reflexivity.
Qed.

Lemma free_returns t ptr st s1 :
  once_outcome st = Ret tt s1 ->
  real_free s1 <> 0 ->
  exists st', free E t ptr st = Ret tt st'.
Proof.
  intros Ho Hf. rewrite free_unfold.
  unfold free_body, bind, call_real_free, get_thread, put_thread, ret.
  rewrite Ho. apply Z.eqb_neq in Hf.
  match goal with |- context [if ?c then _ else _] => destruct c end;
    cbn [real_free set_thread]; rewrite Hf; eexists; reflexivity.
Qed.

(** What [malloc] and [free] return and do to the allocator depends on
    the resolver and the allocator alone. *)
Lemma traffic_step_same t c (a b : state E) v a' :
  same_allocator a b ->
  is_traffic c ->
  step E t c a = Ret v a' ->
  exists b', step E t c b = Ret v b' /\ same_allocator a' b'.
Proof.
  intros Hab Hc Hstep. destruct c as [size|ptr| | |]; try contradiction.
  - apply step_malloc in Hstep as (p & -> & Hma).
    destruct (malloc_ret E _ _ _ _ _ Hma)
      as (s1 & Ho & Hnz & Hreal & Hrm & Hrf & Hd & _).
    destruct (once_outcome_same a b s1 Hab Ho) as (s2 & Ho2 & Hs).
    destruct Hab as (_ & _ & _ & Hheap).
    destruct (Hs) as (Hsm & Hsf & _ & _).
    destruct (malloc_returns t size b s2 Ho2) as (b' & Hmb).
    { now rewrite <- Hsm. }
    rewrite <- Hheap, Hreal in Hmb. cbn [fst] in Hmb.
    exists b'. split.
    + cbn [step]. unfold bind, ret. now rewrite Hmb.
    + destruct (malloc_ret E _ _ _ _ _ Hmb)
        as (s2' & Ho2' & _ & Hreal' & Hrm' & Hrf' & Hd' & _).
      rewrite Ho2 in Ho2'. injection Ho2' as <-.
      rewrite <- Hheap, Hreal in Hreal'. injection Hreal' as Hh.
      unfold same_allocator. repeat split; congruence.
  - apply step_free in Hstep as (-> & Hfa).
    destruct (free_ret E _ _ _ _ _ Hfa)
      as (s1 & Ho & Hnz & Hreal & Hrm & Hrf & Hd & _).
    destruct (once_outcome_same a b s1 Hab Ho) as (s2 & Ho2 & Hs).
    destruct Hab as (_ & _ & _ & Hheap).
    destruct (Hs) as (Hsm & Hsf & _ & _).
    destruct (free_returns t ptr b s2 Ho2) as (b' & Hfb).
    { now rewrite <- Hsf. }
    exists b'. split.
    + cbn [step]. unfold bind, ret. now rewrite Hfb.
    + destruct (free_ret E _ _ _ _ _ Hfb)
        as (s2' & Ho2' & _ & Hreal' & Hrm' & Hrf' & Hd' & _).
      rewrite Ho2 in Ho2'. injection Ho2' as <-.
      unfold same_allocator. repeat split; congruence.
Qed.

Lemma api_step_same t c st v st' :
  is_trafficb c = false ->
  step E t c st = Ret v st' ->
  same_allocator st st'.
Proof.
  intros Hc Hstep. destruct c as [size|ptr| | |]; try discriminate;
    cbn [step] in Hstep; unfold bind, ret in Hstep.
  - rewrite tracking_start_eq in Hstep. injection Hstep as _ <-.
    unfold same_allocator. auto.
  - rewrite tracking_stop_eq in Hstep. injection Hstep as _ <-.
    unfold same_allocator. auto.
  - rewrite tracking_current_eq in Hstep. injection Hstep as _ <-.
    unfold same_allocator. auto.
Qed.

(** X8.  Tracking cannot be told from outside.  Take a schedule that runs to
    its end, strike every call of the tracking API from it and run what is
    left from a state that has the same resolver and allocator but any
    thread-local variables at all: each [malloc] returns the same pointer
    as before, and the resolver and the allocator end up the same. *)
Theorem tracking_transparent tr : forall (a b : state E) log a',
  same_allocator a b ->
  run E tr a = Ret log a' ->
  exists b',
    run E (traffic_only tr) b = Ret (traffic_events log) b' /\
    same_allocator a' b'.
Proof.
  induction tr as [|[u c] tr IH]; intros a b log a' Hab Hrun.
  - injection Hrun as <- <-. now exists b.
  - apply run_cons in Hrun as (v & a1 & log' & Hstep & Hrun & ->).
    unfold traffic_only, traffic_events.
    cbn [filter snd ev_call]. destruct (is_trafficb c) eqn:Hc.
    + assert (Htc : is_traffic c) by (destruct c; try discriminate; exact I).
      destruct (traffic_step_same u c a b v a1 Hab Htc Hstep) as (b1 & Hsb & H1).
      destruct (IH a1 b1 log' a' H1 Hrun) as (b' & Hrb & Hfin).
      exists b'. split; [|exact Hfin].
      cbn [run]. unfold bind, ret. rewrite Hsb.
      unfold traffic_only, traffic_events in Hrb. now rewrite Hrb.
    + apply (api_step_same u c a v a1 Hc) in Hstep.
      destruct (IH a1 b log' a') as (b' & Hrb & Hfin); auto.
      { destruct Hstep as (? & ? & ? & ?), Hab as (? & ? & ? & ?).
        unfold same_allocator. repeat split; congruence. }
      now exists b'.
Qed.

(** *** When the resolver cannot do its work *)

(** X9.  No further [malloc].  Where [dlsym] finds no next definition of
    [malloc], every call of [malloc] the process makes runs or finds the
    initialisation complete and then jumps through the null [real_malloc]:
    the allocator is not reached and no thread-local variable moves. *)
Theorem malloc_without_real_malloc t size st :
  dlsym_mallocs E "malloc" = [] ->
  dlsym_mallocs E "free" = [] ->
  dlsym_next E "malloc" = 0 ->
  reachable E st ->
  exists st',
    malloc E t size st = Halt NullCall st' /\
    init_once st' = ONCE_DONE /\
    (forall u, tls st' u = tls st u) /\
    libc_heap st' = libc_heap st.
Proof.
  intros Hqm Hqf Hnull Hreach.
  apply reachable_bindings in Hreach. unfold bindings_inv in Hreach.
  rewrite malloc_unfold.
  unfold malloc_body, bind, call_real_malloc, once_outcome.
  destruct (init_once st) eqn:Hst; try contradiction.
  - rewrite Hqm, Hqf. cbn [real_malloc resolve]. rewrite Hnull. cbn.
    eexists. split; [reflexivity|]. cbn. auto.
  - destruct Hreach as (Hm & _). rewrite Hm, Hnull. cbn.
    eexists. split; [reflexivity|]. auto.
Qed.

(** X10.  No further [free].  Where [dlsym] finds no next definition of [free],
    every call of [free] jumps through the null [real_free], and it does
    so after the counting: on a tracking thread a non-null pointer has
    already been added to the deallocation count. *)
Theorem free_without_real_free t ptr st :
  dlsym_mallocs E "malloc" = [] ->
  dlsym_mallocs E "free" = [] ->
  dlsym_next E "free" = 0 ->
  reachable E st ->
  exists st',
    free E t ptr st = Halt NullCall st' /\
    tls st' t =
      (if counted (tls st t) ptr
       then mkThread (tracking_enabled (tls st t))
                     (count_deallocation (stats (tls st t)))
       else tls st t) /\
    libc_heap st' = libc_heap st.
Proof.
  intros Hqm Hqf Hnull Hreach.
  apply reachable_bindings in Hreach. unfold bindings_inv in Hreach.
  rewrite free_unfold.
  unfold free_body, bind, call_real_free, get_thread, put_thread, ret,
    once_outcome.
  destruct (init_once st) eqn:Hst; try contradiction.
  - rewrite Hqm, Hqf. cbn [tls resolve].
    destruct (counted (tls st t) ptr); cbn [real_free set_thread resolve];
      rewrite Hnull; cbn; eexists; (split; [reflexivity|]); cbn; auto.
    now rewrite Nat.eqb_refl.
  - destruct Hreach as (_ & Hf).
    destruct (counted (tls st t) ptr); cbn [real_free set_thread];
      rewrite Hf, Hnull; cbn; eexists; (split; [reflexivity|]); cbn; auto.
    now rewrite Nat.eqb_refl.
Qed.

(** X11.  A resolver that allocates.  Where [dlsym] calls [malloc] while it
    resolves either symbol, the first [malloc] or [free] of the process
    never returns: it blocks inside the initialisation it has started,
    before any counter has moved and before the allocator is reached, and
    leaves the once-control in progress for good. *)
Theorem first_call_blocks t size ptr st :
  init_once st = PTHREAD_ONCE_INIT ->
  dlsym_mallocs E "malloc" <> [] \/ dlsym_mallocs E "free" <> [] ->
  exists st',
    malloc E t size st = Halt Deadlock st' /\
    free E t ptr st = Halt Deadlock st' /\
    init_once st' = ONCE_IN_PROGRESS /\
    (forall u, tls st' u = tls st u) /\
    libc_heap st' = libc_heap st /\
    real_free st' = real_free st.
Proof.
  intros Hst Hreq. rewrite malloc_unfold, free_unfold.
  unfold malloc_body, free_body, bind, once_outcome. rewrite Hst.
  destruct (dlsym_mallocs E "malloc") as [|m ms].
  - destruct (dlsym_mallocs E "free") as [|f fs].
    + now destruct Hreq.
    + eexists. split; [reflexivity|]. split; [reflexivity|]. cbn. auto.
  - eexists. split; [reflexivity|]. split; [reflexivity|]. cbn. auto.
Qed.

(** X12.  The first call that returns has initialised the resolver.  After any
    [malloc] or [free] that returns, the once-control is done, the two
    bindings are what [dlsym] gave for "malloc" and "free", and the
    binding the call went through is not null. *)
Theorem returning_traffic_initialises t c st v st' :
  reachable E st ->
  is_traffic c ->
  step E t c st = Ret v st' ->
  init_once st' = ONCE_DONE /\
  real_malloc st' = dlsym_next E "malloc" /\
  real_free st' = dlsym_next E "free" /\
  (forall size, c = Cmalloc size -> real_malloc st' <> 0) /\
  (forall ptr, c = Cfree ptr -> real_free st' <> 0).
Proof.
  intros Hreach Hc Hstep.
  assert (Hinv : bindings_inv st').
  { apply reachable_bindings. eapply reachable_step; eauto. }
  unfold bindings_inv in Hinv.
  destruct c as [size|ptr| | |]; try contradiction.
  - apply step_malloc in Hstep as (p & _ & Hm).
    destruct (malloc_ret E _ _ _ _ _ Hm)
      as (s1 & _ & Hnz & _ & Hrm & _ & Hd & _).
    rewrite Hd in Hinv. destruct Hinv as (Hbm & Hbf).
    repeat split; auto.
    + intros _ _. now rewrite Hrm.
    + intros ? [=].
  - apply step_free in Hstep as (_ & Hf).
    destruct (free_ret E _ _ _ _ _ Hf)
      as (s1 & _ & Hnz & _ & _ & Hrf & Hd & _).
    rewrite Hd in Hinv. destruct Hinv as (Hbm & Hbf).
    repeat split; auto.
    + intros ? [=].
    + intros _ _. now rewrite Hrf.
Qed.

(** *** Readings inside a window *)

Lemma sum_nonneg (l : list Z) : Forall (fun z => 0 <= z) l -> 0 <= sum l.
Proof.
  induction 1 as [|z l Hz _ IH]; [reflexivity|]. rewrite sum_cons. lia.
Qed.

(** X13.  Between two points of an open window the three counters of the thread
    only go up, as long as what the thread has had counted in between does
    not take one of them past [2^64 - 1]: a later reading is never below
    an earlier one, whatever the other threads do in the meantime. *)
Theorem window_monotone t tr st log st' :
  tracking_enabled (tls st t) <> 0 ->
  stats_wf (stats (tls st t)) ->
  Forall (no_window_call t) tr ->
  run E tr st = Ret log st' ->
  Forall (fun z => 0 <= z) (counted_mallocs_of t log) ->
  allocations (stats (tls st t)) + count (counted_mallocs_of t log)
    < UINT64_MOD ->
  deallocations (stats (tls st t)) + count (counted_frees_of t log)
    < UINT64_MOD ->
  bytes_allocated (stats (tls st t)) + sum (counted_mallocs_of t log)
    < UINT64_MOD ->
  stats_le (stats (tls st t)) (stats (tls st' t)).
Proof.
  intros Hon Hwf Hwin Hrun Hpos Ha Hd Hb.
  destruct (open_window_run t tr st log st' Hon Hwf Hrun Hwin) as (_ & Hst).
  apply sum_nonneg in Hpos. destruct Hwf as (Hwa & Hwd & Hwb).
  rewrite Hst. unfold stats_le, advance.
  cbn [allocations deallocations bytes_allocated].
  unfold count in *. rewrite !uint64_small by lia. lia.
Qed.

End Further.

(** * The further properties on the sample execution *)

Lemma malloc_untracked_witness :
  exists st',
    malloc toy_env 1%nat 24 sample_tracking = Ret 4164 st' /\
    libc_heap st' = 4188 /\
    (forall u, tls st' u = tls sample_tracking u).
Proof.
  apply (malloc_untracked toy_env 1%nat 24 sample_tracking 4164 4188).
  - vm_compute. split; discriminate.
  - reflexivity.
  - reflexivity.
Defined.

Lemma free_forwards_witness :
  exists st',
    free toy_env 1%nat 4096 sample_tracking = Ret tt st' /\
    libc_heap st' = libc_free toy_env 4096 (libc_heap sample_tracking) /\
    (tracking_enabled (tls sample_tracking 1%nat) = 0 ->
     forall u, tls st' u = tls sample_tracking u).
Proof.
  apply (free_forwards toy_env 1%nat 4096 sample_tracking).
  vm_compute. split; discriminate.
Defined.

Lemma tracking_api_leaves_allocator_witness :
  exists v st',
    step toy_env 0%nat Cstart boot = Ret v st' /\
    real_malloc st' = real_malloc boot /\ real_free st' = real_free boot /\
    init_once st' = init_once boot /\ libc_heap st' = libc_heap boot.
Proof.
  apply (tracking_api_leaves_allocator toy_env 0%nat Cstart boot).
  intros H. exact H.
Defined.

Lemma traffic_keeps_other_counters_witness :
  tracking_enabled
      (tls (final_state (step toy_env 0%nat (Cfree 4096) sample_tracking)) 0%nat)
    = tracking_enabled (tls sample_tracking 0%nat) /\
  allocations
      (stats (tls (final_state
                     (step toy_env 0%nat (Cfree 4096) sample_tracking)) 0%nat))
    = allocations (stats (tls sample_tracking 0%nat)) /\
  bytes_allocated
      (stats (tls (final_state
                     (step toy_env 0%nat (Cfree 4096) sample_tracking)) 0%nat))
    = bytes_allocated (stats (tls sample_tracking 0%nat)).
Proof.
  destruct (traffic_keeps_other_counters toy_env 0%nat (Cfree 4096)
              sample_tracking Vvoid
              (final_state (step toy_env 0%nat (Cfree 4096) sample_tracking)))
    with (u := 0%nat) as (Hflag & _ & Hfree).
  - reflexivity.
  - exact I.
  - split; [exact Hflag|]. exact (Hfree 4096 eq_refl).
Defined.

Lemma other_threads_leave_thread_witness :
  tls (final_state (run toy_env sample_others sample_tracking)) 0%nat
    = tls sample_tracking 0%nat.
Proof.
  apply (other_threads_leave_thread toy_env 0%nat sample_others sample_tracking
           (returned [] (run toy_env sample_others sample_tracking))).
  - unfold sample_others.
    repeat (apply Forall_cons; [cbn; discriminate|]). apply Forall_nil.
  - reflexivity.
Defined.

Lemma window_running_totals_witness :
  tracking_current toy_env 0%nat
      (final_state (run toy_env sample_mixed sample_opened))
    = Ret (mkStats 2 1 30) (final_state (run toy_env sample_mixed sample_opened)) /\
  tracking_enabled
      (tls (final_state (run toy_env sample_mixed sample_opened)) 0%nat) = 1.
Proof.
  apply (window_running_totals toy_env 0%nat boot sample_opened sample_mixed
           (returned [] (run toy_env sample_mixed sample_opened))).
  - reflexivity.
  - reflexivity.
  - unfold sample_mixed.
    repeat (apply Forall_cons;
            [intros Htid; cbn in Htid |- *;
             first [discriminate Htid | split; discriminate]|]).
    apply Forall_nil.
Defined.

Lemma thread_vars_invariant_witness :
  (tracking_enabled (tls sample_served 0%nat) = 0 \/
   tracking_enabled (tls sample_served 0%nat) = 1) /\
  stats_wf (stats (tls sample_served 0%nat)).
Proof.
  apply (thread_vars_invariant toy_env sample_served).
  apply (reachable_step toy_env boot 0%nat (Cmalloc 8) (Vptr 4096)).
  - apply reachable_init.
  - reflexivity.
Defined.

Lemma tracking_transparent_witness :
  exists b',
    run toy_env (traffic_only sample_after_stop) sample_stopped
      = Ret (traffic_events
               (returned [] (run toy_env sample_after_stop sample_tracking))) b' /\
    same_allocator
      (final_state (run toy_env sample_after_stop sample_tracking)) b'.
Proof.
  apply (tracking_transparent toy_env sample_after_stop sample_tracking
           sample_stopped).
  - repeat split; reflexivity.
  - reflexivity.
Defined.

Lemma malloc_without_real_malloc_witness :
  exists st',
    malloc unresolved_env 0%nat 8 (initial_state unresolved_env 4096)
      = Halt NullCall st' /\
    init_once st' = ONCE_DONE /\
    (forall u, tls st' u = tls (initial_state unresolved_env 4096) u) /\
    libc_heap st' = libc_heap (initial_state unresolved_env 4096).
Proof.
  apply (malloc_without_real_malloc unresolved_env 0%nat 8
           (initial_state unresolved_env 4096)).
  - reflexivity.
  - reflexivity.
  - reflexivity.
  - apply reachable_init.
Defined.

Lemma free_without_real_free_witness :
  exists st',
    free no_free_env 0%nat 4096 sample_no_free = Halt NullCall st' /\
    tls st' 0%nat =
      (if counted (tls sample_no_free 0%nat) 4096
       then mkThread (tracking_enabled (tls sample_no_free 0%nat))
                     (count_deallocation (stats (tls sample_no_free 0%nat)))
       else tls sample_no_free 0%nat) /\
    libc_heap st' = libc_heap sample_no_free.
Proof.
  apply (free_without_real_free no_free_env 0%nat 4096 sample_no_free).
  - reflexivity.
  - reflexivity.
  - reflexivity.
  - apply (reachable_step no_free_env
             (final_state (step no_free_env 0%nat Cstart
                                (initial_state no_free_env 4096)))
             0%nat (Cmalloc 8) (Vptr 4096)).
    + apply (reachable_step no_free_env (initial_state no_free_env 4096)
               0%nat Cstart Vvoid).
      * apply reachable_init.
      * reflexivity.
    + reflexivity.
Defined.

Lemma first_call_blocks_witness :
  exists st',
    malloc reentrant_env 0%nat 8 (initial_state reentrant_env 4096)
      = Halt Deadlock st' /\
    free reentrant_env 0%nat 0 (initial_state reentrant_env 4096)
      = Halt Deadlock st' /\
    init_once st' = ONCE_IN_PROGRESS /\
    (forall u, tls st' u = tls (initial_state reentrant_env 4096) u) /\
    libc_heap st' = libc_heap (initial_state reentrant_env 4096) /\
    real_free st' = real_free (initial_state reentrant_env 4096).
Proof.
  apply (first_call_blocks reentrant_env 0%nat 8 0
           (initial_state reentrant_env 4096)).
  - reflexivity.
  - left. discriminate.
Defined.

Lemma returning_traffic_initialises_witness :
  init_once sample_served = ONCE_DONE /\
  real_malloc sample_served = dlsym_next toy_env "malloc" /\
  real_free sample_served = dlsym_next toy_env "free" /\
  (forall size, Cmalloc 8 = Cmalloc size -> real_malloc sample_served <> 0) /\
  (forall ptr, Cmalloc 8 = Cfree ptr -> real_free sample_served <> 0).
Proof.
  apply (returning_traffic_initialises toy_env 0%nat (Cmalloc 8) boot
           (Vptr 4096) sample_served).
  - apply reachable_init.
  - exact I.
  - reflexivity.
Defined.

Lemma window_monotone_witness :
  stats_le (stats (tls sample_opened 0%nat))
           (stats (tls (final_state (run toy_env sample_mixed sample_opened))
                       0%nat)).
Proof.
  apply (window_monotone toy_env 0%nat sample_mixed sample_opened
           (returned [] (run toy_env sample_mixed sample_opened))).
  - vm_compute. discriminate.
  - vm_compute. intuition discriminate.
  - unfold sample_mixed.
    repeat (apply Forall_cons;
            [intros Htid; cbn in Htid |- *;
             first [discriminate Htid | split; discriminate]|]).
    apply Forall_nil.
  - reflexivity.
  - vm_compute. repeat constructor; discriminate.
  - vm_compute. reflexivity.
  - vm_compute. reflexivity.
  - vm_compute. reflexivity.
Defined.
